(** * Shallow embedding of the TF-IDF recommender of [main.py]

    The model covers [_norm_title], [build_title_map],
    [tfidf_recommend_titles] and the artifact loading of [lifespan]; then
    the OMDb helpers of [main.py] ([imdb_to_int], the genres of
    [omdb_movie_details], [home], [movie_details_route]) and the pure parts
    of the Streamlit client [app.py] (the routing block, [goto_home],
    [goto_details], [poster_grid], [to_cards_from_tfidf_items],
    [parse_tmdb_search_to_cards]), with Python values as [pyval] and
    exceptions as [PErr].

    Modelling choices:
    - Python strings are Rocq [string]s (characters of the ASCII range);
    - float64 similarity scores are abstracted as integers [Z]: the code only
      negates, compares and copies them;
    - the sparse TF-IDF matrix is a list of rows, one [list Z] per row, and
      [tfidf_matrix @ tfidf_matrix[idx].T] is the list of dot products of
      every row with row [idx];
    - [df] is represented by its ["title"] column, a [list string];
    - [TITLE_TO_IDX] (a Python dict) is a [gmap string nat];
    - [np.argsort] (default kind, an introsort that is not stable) is a
      parameter constrained only by its contract: it returns a permutation of
      the positions of its argument, ordered by ascending key;
    - Python exceptions ([IndexError] from [tfidf_matrix[idx]] or
      [df.iloc[i]], [FileNotFoundError] from [open], the exception of
      [pickle.load] on a corrupt file, and those of [indices.items()] and
      [int(v)] in [build_title_map]) are the error side of [result]. *)

From Stdlib Require Import Ascii String.
From Stdlib Require Import ZArith Lia Sorting.Sorted Sorting.Permutation.
From Stdlib Require Import QArith_base.
From stdpp Require Import base gmap list strings.

Open Scope Z_scope.

(** ** Errors *)

Inductive exn :=
| IndexError
| FileNotFoundError
| PickleLoadError   (* [pickle.load] raises: a corrupt or truncated pickle *)
| ItemsError        (* [indices.items()] on an object without [items] *)
| IntError.         (* [int(v)] raises on an index value *)

Inductive result (A : Type) :=
| Ok (a : A)
| Err (e : exn).
Arguments Ok {A} a.
Arguments Err {A} e.

(** ** [_norm_title]: [str(t).strip().lower()] *)

(** Python's [str.isspace] on the ASCII range: [\t \n \x0b \x0c \r],
    the separators [\x1c]..[\x1f] and the space. *)
Definition is_space (c : ascii) : bool :=
  let n := nat_of_ascii c in
  ((9 <=? n) && (n <=? 13))%nat || ((28 <=? n) && (n <=? 32))%nat.

(** [str.lower] on the ASCII range: ['A'..'Z'] to ['a'..'z']. *)
Definition lower_char (c : ascii) : ascii :=
  let n := nat_of_ascii c in
  if ((65 <=? n) && (n <=? 90))%nat then ascii_of_nat (n + 32) else c.

Fixpoint lower (s : string) : string :=
  match s with
  | EmptyString => EmptyString
  | String c s' => String (lower_char c) (lower s')
  end.

Fixpoint lstrip (s : string) : string :=
  match s with
  | EmptyString => EmptyString
  | String c s' => if is_space c then lstrip s' else s
  end.

(** A character is dropped on the right exactly when it is a space and
    everything after it is dropped as well. *)
Fixpoint rstrip (s : string) : string :=
  match s with
  | EmptyString => EmptyString
  | String c s' =>
      let r := rstrip s' in
      match r with
      | EmptyString => if is_space c then EmptyString else String c EmptyString
      | _ => String c r
      end
  end.

Definition strip (s : string) : string := rstrip (lstrip s).

Definition _norm_title (t : string) : string := lower (strip t).

(** ** [build_title_map]: [{_norm_title(k): int(v) for k, v in indices.items()}]

    [indices] is the pickled pandas Series title -> row, given by its
    [items()] in iteration order. A dict comprehension inserts left to
    right, so a later key overwrites an earlier equal one. *)
Fixpoint build_title_map_from (acc : gmap string nat)
    (items : list (string * nat)) : gmap string nat :=
  match items with
  | [] => acc
  | (k, v) :: rest => build_title_map_from (<[_norm_title k := v]> acc) rest
  end.

Definition build_title_map (indices : list (string * nat)) : gmap string nat :=
  build_title_map_from ∅ indices.

(** ** Loaded state: the three module globals *)

Record State := mkState {
  df : list string;                 (* df["title"] *)
  tfidf_matrix : list (list Z);
  TITLE_TO_IDX : gmap string nat
}.

(** ** [lifespan]: load the three pickles, in order, without any check

    What [open] followed by [pickle.load] gives for one artifact file. *)
Inductive artifact (A : Type) :=
| Missing                 (* [open] raises [FileNotFoundError] *)
| Corrupt                 (* [pickle.load] raises *)
| Unpickled (a : A).
Arguments Missing {A}.
Arguments Corrupt {A}.
Arguments Unpickled {A} a.

(** A value of the unpickled index, as [int(v)] sees it: one it turns into
    the row number [n], or one it rejects ([ValueError], [TypeError]). *)
Inductive index_value :=
| IntOk (n : nat)
| IntRejected.

(** The unpickled index: an object with [items()] (its pairs, in iteration
    order, keys as [str(k)]), or one without. *)
Inductive index_obj :=
| IndexMap (items : list (string * index_value))
| IndexOther.

(** [int(v)] on the values of [indices.items()], in iteration order: the
    first value [int] rejects raises, and the dict comprehension of
    [build_title_map] is then abandoned. *)
Fixpoint int_values (items : list (string * index_value))
    : result (list (string * nat)) :=
  match items with
  | [] => Ok []
  | (k, IntRejected) :: _ => Err IntError
  | (k, IntOk n) :: rest =>
      match int_values rest with
      | Ok r => Ok ((k, n) :: r)
      | Err e => Err e
      end
  end.

(** [TITLE_TO_IDX = build_title_map(pickle.load(f))] *)
Definition load_title_map (indices : index_obj) : result (gmap string nat) :=
  match indices with
  | IndexOther => Err ItemsError
  | IndexMap items =>
      match int_values items with
      | Ok kvs => Ok (build_title_map kvs)
      | Err e => Err e
      end
  end.

Definition lifespan (df_file : artifact (list string))
    (indices_file : artifact index_obj)
    (tfidf_matrix_file : artifact (list (list Z))) : result State :=
  match df_file with
  | Missing => Err FileNotFoundError
  | Corrupt => Err PickleLoadError
  | Unpickled d =>
      match indices_file with
      | Missing => Err FileNotFoundError
      | Corrupt => Err PickleLoadError
      | Unpickled ind =>
          match load_title_map ind with
          | Err e => Err e
          | Ok title_to_idx =>
              match tfidf_matrix_file with
              | Missing => Err FileNotFoundError
              | Corrupt => Err PickleLoadError
              | Unpickled m => Ok (mkState d m title_to_idx)
              end
          end
      end
  end.

(** ** Scores: [(tfidf_matrix @ tfidf_matrix[idx].T).toarray().ravel()] *)

Fixpoint dot (u v : list Z) : Z :=
  match u, v with
  | x :: u', y :: v' => x * y + dot u' v'
  | _, _ => 0
  end.

Definition scores_of (m : list (list Z)) (q : list Z) : list Z :=
  map (fun r => dot r q) m.

(** The contract of [np.argsort] used by the code: a permutation of
    [0 .. len(v)-1] in ascending order of the keys. *)
Definition argsort_contract (argsort : list Z -> list nat) : Prop :=
  forall v, Permutation (argsort v) (seq 0 (length v)) /\
            Sorted (fun i j => nth i v 0 <= nth j v 0) (argsort v).

Section Recommend.

Variable argsort : list Z -> list nat.

(** The [for i in order] loop of [tfidf_recommend_titles], with the list
    [out] built so far. The length check comes after the append. *)
Fixpoint rec_loop (titles : list string) (scores : list Z) (idx : nat)
    (top_n : Z) (order : list nat) (out : list (string * Z))
    : result (list (string * Z)) :=
  match order with
  | [] => Ok out
  | i :: rest =>
      if Nat.eqb i idx then rec_loop titles scores idx top_n rest out
      else
        match titles !! i with
        | None => Err IndexError
        | Some t =>
            let out' := out ++ [(t, nth i scores 0)] in
            if Z.of_nat (length out') >=? top_n then Ok out'
            else rec_loop titles scores idx top_n rest out'
        end
  end.

Definition tfidf_recommend_titles (st : State) (title : string) (top_n : Z)
    : result (list (string * Z)) :=
  match TITLE_TO_IDX st !! _norm_title title with
  | None => Ok []
  | Some idx =>
      match tfidf_matrix st !! idx with
      | None => Err IndexError
      | Some q =>
          let scores := scores_of (tfidf_matrix st) q in
          let order := argsort (map Z.opp scores) in
          rec_loop (df st) scores idx top_n order []
      end
  end.

End Recommend.

(** ** Two implementations of the [np.argsort] contract

    An insertion sort of the positions by key; positions with equal keys are
    ordered by the tie-breaker [tb]. Whatever [tb] is, the result meets
    [argsort_contract] (see [argsort_by_contract] below). *)

Fixpoint insert_by (leb : nat -> nat -> bool) (x : nat) (l : list nat)
    : list nat :=
  match l with
  | [] => [x]
  | y :: l' => if leb x y then x :: l else y :: insert_by leb x l'
  end.

Fixpoint isort (leb : nat -> nat -> bool) (l : list nat) : list nat :=
  match l with
  | [] => []
  | x :: l' => insert_by leb x (isort leb l')
  end.

Definition key_leb (v : list Z) (tb : nat -> nat -> bool) (i j : nat) : bool :=
  (nth i v 0 <? nth j v 0) || ((nth i v 0 =? nth j v 0) && tb i j).

Definition argsort_by (tb : nat -> nat -> bool) (v : list Z) : list nat :=
  isort (key_leb v tb) (seq 0 (length v)).

(** Equal keys in ascending position ([kind="stable"]). *)
Definition argsort_stable : list Z -> list nat := argsort_by Nat.leb.

(** Equal keys in descending position: an unstable sort. *)
Definition argsort_ties_reversed : list Z -> list nat :=
  argsort_by (fun i j => Nat.leb j i).

(** ** The loaded state read through a state monad

    [tfidf_recommend_titles] only reads the module globals. *)

Definition M (A : Type) : Type := State -> A * State.

Definition ret {A} (a : A) : M A := fun s => (a, s).

Definition bind {A B} (m : M A) (f : A -> M B) : M B :=
  fun s => let (a, s') := m s in f a s'.

Definition gets {A} (f : State -> A) : M A := fun s => (f s, s).

Notation "'let*' x ':=' m 'in' k" := (bind m (fun x => k))
  (at level 200, x name, m at level 100, k at level 200).

Definition tfidf_recommend_titles_m (argsort : list Z -> list nat)
    (title : string) (top_n : Z) : M (result (list (string * Z))) :=
  let* title_to_idx := gets TITLE_TO_IDX in
  match title_to_idx !! _norm_title title with
  | None => ret (Ok [])
  | Some idx =>
      let* mat := gets tfidf_matrix in
      match mat !! idx with
      | None => ret (Err IndexError)
      | Some q =>
          let* titles := gets df in
          let scores := scores_of mat q in
          ret (rec_loop titles scores idx top_n (argsort (map Z.opp scores)) [])
      end
  end.

(** The row-alignment invariant of the loaded artifacts: as many matrix
    rows as corpus rows, and every index value a valid row. *)
Definition consistent (st : State) : Prop :=
  length (tfidf_matrix st) = length (df st) /\
  map_Forall (fun _ i => (i < length (df st))%nat) (TITLE_TO_IDX st).

(** Number of rows the loop appends, starting from [len] rows in [out]:
    at least one, and up to [top_n]. *)
Definition n_taken (top_n : Z) (len : nat) : nat :=
  Z.to_nat (Z.max 1 (top_n - Z.of_nat len)).

(** ** Sample data *)

Definition st_dark : State :=
  match lifespan
    (Unpickled ["The Dark Knight"; "Batman Begins"; "The Dark Knight Rises"; "Up"])
    (Unpickled (IndexMap [("The Dark Knight", IntOk 0); ("Batman Begins", IntOk 1);
                          ("The Dark Knight Rises", IntOk 2); ("Up", IntOk 3)]))
    (Unpickled [[3; 1; 0]; [2; 1; 0]; [3; 0; 0]; [0; 0; 5]])
  with Ok st => st | Err _ => mkState [] [] ∅ end.

Example dark_knight_2 :
  tfidf_recommend_titles argsort_stable st_dark "the dark knight" 2
  = Ok [("The Dark Knight Rises", 9); ("Batman Begins", 7)].
Proof. vm_compute. reflexivity. Qed.

Example dark_knight_padded :
  tfidf_recommend_titles argsort_stable st_dark "  THE Dark knight " 1
  = Ok [("The Dark Knight Rises", 9)].
Proof. vm_compute. reflexivity. Qed.

Example unknown_title :
  tfidf_recommend_titles argsort_stable st_dark "Nonexistent Movie XYZ" 5 = Ok [].
Proof. vm_compute. reflexivity. Qed.

Example dark_knight_zero :
  tfidf_recommend_titles argsort_stable st_dark "the dark knight" 0
  = Ok [("The Dark Knight Rises", 9)].
Proof. vm_compute. reflexivity. Qed.

(** * Python values used by the API helpers and the Streamlit client *)

(** Exceptions raised by the helpers below. *)
Inductive pyexn :=
| AttributeError
| TypeError
| ValueError
| ZeroDivisionError
| KeyError
| IndexError'  (* Python's [IndexError] *)
| StreamlitAPIException.

Inductive pyres (A : Type) :=
| POk (a : A)
| PErr (e : pyexn).
Arguments POk {A} a.
Arguments PErr {A} e.

Definition pbind {A B} (m : pyres A) (f : A -> pyres B) : pyres B :=
  match m with POk a => f a | PErr e => PErr e end.

Notation "'let!' x ':=' m 'in' k" := (pbind m (fun x => k))
  (at level 200, x name, m at level 100, k at level 200).

(** ** [int(s)] and [str(n)] for Python integers, base 10

    [int] strips whitespace, takes an optional sign, then digits with
    single underscores between them. A string of more than
    [sys.get_int_max_str_digits()] (4300) digits is refused both ways. *)

Definition max_str_digits : nat := 4300.

Definition is_digit (c : ascii) : bool :=
  let n := nat_of_ascii c in ((48 <=? n) && (n <=? 57))%nat.

Definition digit_value (c : ascii) : Z := Z.of_nat (nat_of_ascii c - 48).

(** [prev]: the last character read was a digit. Returns the value read
    and the number of digits. *)
Fixpoint parse_digits (s : string) (acc : Z) (count : nat) (prev : bool)
    : option (Z * nat) :=
  match s with
  | EmptyString => if prev then Some (acc, count) else None
  | String c r =>
      if Ascii.eqb c "_" then
        (if prev then parse_digits r acc count false else None)
      else if is_digit c then
        parse_digits r (acc * 10 + digit_value c) (S count) true
      else None
  end.

Definition parse_unsigned (s : string) : option Z :=
  match parse_digits s 0 0 false with
  | Some (v, count) => if (count <=? max_str_digits)%nat then Some v else None
  | None => None
  end.

(** [int(s)] for a [str]; [None] is a [ValueError]. *)
Definition py_int (s : string) : option Z :=
  match strip s with
  | EmptyString => None
  | String c r =>
      if Ascii.eqb c "-" then option_map Z.opp (parse_unsigned r)
      else if Ascii.eqb c "+" then parse_unsigned r
      else parse_unsigned (String c r)
  end.

Definition digit_char (d : Z) : ascii := ascii_of_nat (Z.to_nat d + 48).

(** The decimal digits of [n >= 0] in front of [acc], most significant
    first; [fuel] bounds the number of digits. *)
Fixpoint digits_fuel (fuel : nat) (n : Z) (acc : string) : string :=
  match fuel with
  | O => acc
  | S f =>
      let acc' := String (digit_char (n mod 10)) acc in
      if n / 10 =? 0 then acc' else digits_fuel f (n / 10) acc'
  end.

Definition str_nonneg (n : Z) : string :=
  digits_fuel (S (S (Z.to_nat (Z.log2 n)))) n EmptyString.

(** [str(n)]; [None] is the [ValueError] for more than 4300 digits. *)
Definition py_str_int (n : Z) : option string :=
  let ds := str_nonneg (Z.abs n) in
  if (String.length ds <=? max_str_digits)%nat then
    Some (if n <? 0 then String "-" ds else ds)
  else None.

(** [s.replace("tt", "")]: every occurrence, left to right, without
    overlaps. *)
Fixpoint remove_tt (s : string) : string :=
  match s with
  | EmptyString => EmptyString
  | String c1 s1 =>
      match s1 with
      | String c2 r =>
          if Ascii.eqb c1 "t" && Ascii.eqb c2 "t" then remove_tt r
          else String c1 (remove_tt s1)
      | EmptyString => String c1 EmptyString
      end
  end.

(** [imdb_to_int]: [int(imdb_id.replace("tt", ""))]; [None] is a
    [ValueError]. *)
Definition imdb_to_int (imdb_id : string) : option Z :=
  py_int (remove_tt imdb_id).

(** The id in the details of [/movie/id/{tmdb_id}]:
    [omdb_movie_details(f"tt{tmdb_id}")] sets [tmdb_id=imdb_to_int(imdb_id)].
    [None] is a [ValueError], from [str] or from [int]. *)
Definition movie_details_route_id (tmdb_id : Z) : option Z :=
  match py_str_int tmdb_id with
  | Some s => imdb_to_int (String.append "tt" s)
  | None => None
  end.

Example imdb_to_int_ex : imdb_to_int "tt0111161" = Some 111161.
Proof. reflexivity. Qed.

Example py_str_int_ex : py_str_int (-2048) = Some "-2048"%string.
Proof. reflexivity. Qed.

Example py_int_ex : py_int " +1_000 " = Some 1000.
Proof. reflexivity. Qed.

Example py_int_bad : py_int "1__0" = None.
Proof. reflexivity. Qed.

(** * Python values of the JSON payloads and of the Streamlit client

    A decoded JSON value (or a value built by the code from one). Objects
    are association lists in key order; the keys of a decoded object are
    distinct, and [get] returns the entry of its key. *)
#[warnings="-register-all"]
Inductive pyval :=
| PNone
| PBool (b : bool)
| PInt (z : Z)
| PFloat (q : Q)
| PStr (s : string)
| PList (l : list pyval)
| PDict (d : list (string * pyval)).

Fixpoint dget (k : string) (d : list (string * pyval)) : option pyval :=
  match d with
  | [] => None
  | (k', v) :: d' => if String.eqb k k' then Some v else dget k d'
  end.

(** [bool(v)] *)
Definition truthy (v : pyval) : bool :=
  match v with
  | PNone => false
  | PBool b => b
  | PInt z => negb (z =? 0)
  | PFloat q => negb (Qeq_bool q 0)
  | PStr s => negb (String.eqb s "")
  | PList [] => false
  | PList _ => true
  | PDict [] => false
  | PDict _ => true
  end.

(** [a or b] *)
Definition py_or (a b : pyval) : pyval := if truthy a then a else b.

(** [m.get(k, default)]: only a dict has [get]. *)
Definition py_get (m : pyval) (k : string) (default : pyval) : pyres pyval :=
  match m with
  | PDict d => POk (match dget k d with Some v => v | None => default end)
  | _ => PErr AttributeError
  end.

(** [m[k]] for a [str] key. *)
Definition py_getitem (m : pyval) (k : string) : pyres pyval :=
  match m with
  | PDict d => match dget k d with Some v => POk v | None => PErr KeyError end
  | _ => PErr TypeError
  end.

(** [k in m] for a dict [m]. *)
Definition py_has_key (m : pyval) (k : string) : bool :=
  match m with
  | PDict d => match dget k d with Some _ => true | None => false end
  | _ => false
  end.

Definition char_str (c : ascii) : pyval := PStr (String c EmptyString).

(** The elements a [for] loop visits: a string gives its characters, a dict
    its keys. *)
Definition py_iter (v : pyval) : pyres (list pyval) :=
  match v with
  | PList l => POk l
  | PStr s => POk (map char_str (list_ascii_of_string s))
  | PDict d => POk (map (fun kv => PStr kv.1) d)
  | _ => PErr TypeError
  end.

(** [len(v)] *)
Definition py_len (v : pyval) : pyres Z :=
  match v with
  | PList l => POk (Z.of_nat (length l))
  | PStr s => POk (Z.of_nat (String.length s))
  | PDict d => POk (Z.of_nat (length d))
  | _ => PErr TypeError
  end.

(** [l[:k]] on a Python sequence: a negative [k] counts from the end. *)
Definition py_take {A} (k : Z) (l : list A) : list A :=
  if 0 <=? k then firstn (Z.to_nat k) l
  else firstn (Z.to_nat (Z.of_nat (length l) + k)) l.

(** [v[:k]]; subscripting a dict with a slice is a [TypeError] up to
    Python 3.11. *)
Definition py_slice_to (v : pyval) (k : Z) : pyres pyval :=
  match v with
  | PList l => POk (PList (py_take k l))
  | PStr s => POk (PStr (string_of_list_ascii (py_take k (list_ascii_of_string s))))
  | _ => PErr TypeError
  end.

(** [v[i]] for an int [i]. *)
Definition py_index (v : pyval) (i : Z) : pyres pyval :=
  let get {A} (l : list A) (f : A -> pyval) :=
    let n := Z.of_nat (length l) in
    let j := if i <? 0 then n + i else i in
    if (0 <=? j) && (j <? n) then
      match nth_error l (Z.to_nat j) with Some x => POk (f x) | None => PErr IndexError' end
    else PErr IndexError' in
  match v with
  | PList l => get l (fun x => x)
  | PStr s => get (list_ascii_of_string s) char_str
  | PDict _ => PErr KeyError
  | _ => PErr TypeError
  end.

(** [v == s] for a [str] [s] *)
Definition py_eq_str (v : pyval) (s : string) : bool :=
  match v with PStr t => String.eqb t s | _ => false end.

(** [v.strip()] and [v.lower()]: only a [str] has them. *)
Definition py_strip (v : pyval) : pyres pyval :=
  match v with PStr s => POk (PStr (strip s)) | _ => PErr AttributeError end.

Definition py_lower (v : pyval) : pyres string :=
  match v with PStr s => POk (lower s) | _ => PErr AttributeError end.

Fixpoint is_prefix (p s : string) : bool :=
  match p, s with
  | EmptyString, _ => true
  | String a p', String b s' => Ascii.eqb a b && is_prefix p' s'
  | String _ _, EmptyString => false
  end.

(** [p in s] for two strings. *)
Fixpoint str_contains (p s : string) : bool :=
  is_prefix p s || match s with
                   | EmptyString => false
                   | String _ s' => str_contains p s'
                   end.

(** [int(v)] *)
Definition py_int_of (v : pyval) : pyres Z :=
  match v with
  | PInt z => POk z
  | PBool b => POk (if b then 1 else 0)
  | PFloat q => POk (Z.quot (Qnum q) (Zpos (Qden q)))
  | PStr s => match py_int s with Some n => POk n | None => PErr ValueError end
  | _ => PErr TypeError
  end.

(** [imdb_to_int(v)]: [int(v.replace("tt", ""))]. *)
Definition py_imdb_to_int (v : pyval) : pyres Z :=
  match v with
  | PStr s => match imdb_to_int s with Some n => POk n | None => PErr ValueError end
  | _ => PErr AttributeError
  end.

Fixpoint mapM {A B} (f : A -> pyres B) (l : list A) : pyres (list B) :=
  match l with
  | [] => POk []
  | x :: l' => let! y := f x in let! ys := mapM f l' in POk (y :: ys)
  end.

Fixpoint filterM {A} (f : A -> pyres bool) (l : list A) : pyres (list A) :=
  match l with
  | [] => POk []
  | x :: l' =>
      let! b := f x in let! ys := filterM f l' in POk (if b then x :: ys else ys)
  end.

Fixpoint concat_mapM {A B} (f : A -> pyres (list B)) (l : list A)
    : pyres (list B) :=
  match l with
  | [] => POk []
  | x :: l' => let! ys := f x in let! zs := concat_mapM f l' in POk (ys ++ zs)
  end.

(** * [omdb_movie_details]: the genres of an OMDb record *)

Definition cons_head (c : ascii) (l : list string) : list string :=
  match l with
  | [] => [String c EmptyString]
  | x :: l' => String c x :: l'
  end.

(** [s.split(", ")]: the leftmost separator first, without overlaps. *)
Fixpoint split_comma (s : string) : list string :=
  match s with
  | EmptyString => [EmptyString]
  | String c r =>
      match r with
      | String d r' =>
          if Ascii.eqb c "," && Ascii.eqb d " " then EmptyString :: split_comma r'
          else cons_head c (split_comma r)
      | EmptyString => cons_head c (split_comma r)
      end
  end.

(** [", ".join(names)] *)
Fixpoint join_comma (names : list string) : string :=
  match names with
  | [] => EmptyString
  | [x] => x
  | x :: names' => String.append x (String "," (String " " (join_comma names')))
  end.

(** [genres=[{"name": g} for g in (data.get("Genre") or "").split(", ") if g]] *)
Definition omdb_genres (data : pyval) : pyres (list pyval) :=
  let! g := py_get data "Genre" PNone in
  match py_or g (PStr "") with
  | PStr s =>
      POk (map (fun n => PDict [("name", PStr n)])
             (List.filter (fun n => negb (String.eqb n "")) (split_comma s)))
  | _ => PErr AttributeError
  end.

(** * [/home] *)

Definition keyword_map : list (string * string) :=
  [("trending", "avengers"); ("popular", "batman"); ("top_rated", "godfather");
   ("now_playing", "2024"); ("upcoming", "2025")].

Definition home_keyword (category : string) : string :=
  match List.find (fun kv => String.eqb kv.1 category) keyword_map with
  | Some kv => kv.2
  | None => "movie"
  end.

(** The cards [home] builds from the OMDb reply [data] to its search. The
    pydantic constructor [OMDBMovieCard(tmdb_id, title, poster_url,
    release_date)] is a parameter: it may refuse its arguments. *)
Section Home.
Variable card : Type.
Variable OMDBMovieCard : Z -> pyval -> pyval -> pyval -> pyres card.

Definition home_card (m : pyval) : pyres card :=
  let! imdb := py_getitem m "imdbID" in
  let! tmdb_id := py_imdb_to_int imdb in
  let! title := py_getitem m "Title" in
  let! p := py_getitem m "Poster" in
  let! poster_url := (if py_eq_str p "N/A" then POk PNone else py_getitem m "Poster") in
  let! year := py_get m "Year" PNone in
  OMDBMovieCard tmdb_id title poster_url year.

Definition home_cards (data : pyval) (limit : Z) : pyres (list card) :=
  let! s := py_get data "Search" (PList []) in
  let! sl := py_slice_to s limit in
  let! ms := py_iter sl in
  mapM home_card ms.

End Home.

(** * [to_cards_from_tfidf_items] *)

Definition card_of (tmdb_id title poster_url : pyval) : pyval :=
  PDict [("tmdb_id", tmdb_id); ("title", title); ("poster_url", poster_url)].

Fixpoint tfidf_cards_loop (xs : list pyval) : pyres (list pyval) :=
  match xs with
  | [] => POk []
  | x :: xs' =>
      let! t := py_get x "tmdb" PNone in
      let tmdb := py_or t (PDict []) in
      let! id := py_get tmdb "tmdb_id" PNone in
      if truthy id then
        let! tmdb_id := py_getitem tmdb "tmdb_id" in
        let! t1 := py_get tmdb "title" PNone in
        let! title := (if truthy t1 then POk t1
                       else let! t2 := py_get x "title" PNone in
                            POk (py_or t2 (PStr "Untitled"))) in
        let! poster := py_get tmdb "poster_url" PNone in
        let! rest := tfidf_cards_loop xs' in
        POk (card_of tmdb_id title poster :: rest)
      else tfidf_cards_loop xs'
  end.

Definition to_cards_from_tfidf_items (tfidf_items : pyval) : pyres (list pyval) :=
  let! xs := py_iter (py_or tfidf_items (PList [])) in
  tfidf_cards_loop xs.

(** * [parse_tmdb_search_to_cards] *)

Definition raw_item (tmdb_id title poster_url release_date : pyval) : pyval :=
  PDict [("tmdb_id", tmdb_id); ("title", title); ("poster_url", poster_url);
         ("release_date", release_date)].

(** One element of an OMDb ["Search"] list; the bare [except] turns any
    failure of [int(imdb_id.replace("tt", ""))] into [None]. *)
Definition omdb_item (m : pyval) : pyres (list pyval) :=
  let! t := py_get m "Title" PNone in
  let! title := py_strip (py_or t (PStr "")) in
  let! imdb_id := py_get m "imdbID" (PStr "") in
  let! poster := py_get m "Poster" PNone in
  let! year := py_get m "Year" (PStr "") in
  let tmdb_id :=
    if truthy imdb_id then
      match py_imdb_to_int imdb_id with POk n => PInt n | PErr _ => PNone end
    else PNone in
  if truthy title && truthy tmdb_id then
    POk [raw_item tmdb_id title (if py_eq_str poster "N/A" then PNone else poster) year]
  else POk [].

(** One element of a TMDB-style ["results"] list. *)
Definition tmdb_item (m : pyval) : pyres (list pyval) :=
  let! t := py_get m "title" PNone in
  let! title := py_strip (py_or t (PStr "")) in
  let! tmdb_id := py_get m "id" PNone in
  let! poster := py_get m "poster_path" PNone in
  if truthy title && truthy tmdb_id then
    let! n := py_int_of tmdb_id in
    let! rd := py_get m "release_date" (PStr "") in
    POk [raw_item (PInt n) title poster rd]
  else POk [].

(** One element of a list reply. *)
Definition list_item (m : pyval) : pyres (list pyval) :=
  let! id := py_get m "tmdb_id" PNone in
  let! keep := (if truthy id then let! t := py_get m "title" PNone in POk (truthy t)
                else POk false) in
  if keep then
    let! tmdb_id := py_get m "tmdb_id" PNone in
    let! title := py_get m "title" PNone in
    let! poster := py_get m "poster_url" PNone in
    let! rd := py_get m "release_date" (PStr "") in
    POk [raw_item tmdb_id title poster rd]
  else POk [].

(** [None] is the early [return [], []]. *)
Definition parse_raw_items (data : pyval) : pyres (option (list pyval)) :=
  match data with
  | PDict _ =>
      if py_has_key data "Search" then
        let! s := py_get data "Search" (PList []) in
        let! ms := py_iter s in
        let! items := concat_mapM omdb_item ms in POk (Some items)
      else if py_has_key data "results" then
        let! s := py_get data "results" (PList []) in
        let! ms := py_iter s in
        let! items := concat_mapM tmdb_item ms in POk (Some items)
      else POk None
  | PList l => let! items := concat_mapM list_item l in POk (Some items)
  | _ => POk None
  end.

Definition title_has (keyword_l : string) (x : pyval) : pyres bool :=
  let! t := py_getitem x "title" in
  let! tl := py_lower t in
  POk (str_contains keyword_l tl).

Definition search_card (x : pyval) : pyres pyval :=
  let! tmdb_id := py_getitem x "tmdb_id" in
  let! title := py_getitem x "title" in
  let! poster := py_getitem x "poster_url" in
  POk (card_of tmdb_id title poster).

(** * The Streamlit client: value formatting, [poster_grid], routing *)

Section Client.

(** [repr] of a float, list or dict: what an f-string shows for them. *)
Variable py_repr : pyval -> string.

(** [f"{v}"]; an int of more than 4300 digits is a [ValueError]. *)
Definition py_format (v : pyval) : pyres string :=
  match v with
  | PNone => POk "None"
  | PBool true => POk "True"
  | PBool false => POk "False"
  | PInt z => match py_str_int z with Some s => POk s | None => PErr ValueError end
  | PStr s => POk s
  | _ => POk (py_repr v)
  end.

Definition suggestion (x : pyval) : pyres (pyval * pyval) :=
  let! rd := py_get x "release_date" PNone in
  let! year := py_slice_to (py_or rd (PStr "")) 4 in
  let! label :=
    (if truthy year then
       let! t := py_getitem x "title" in
       let! ts := py_format t in
       let! ys := py_format year in
       POk (PStr (String.append ts (String.append " (" (String.append ys ")"))))
     else py_getitem x "title") in
  let! tmdb_id := py_getitem x "tmdb_id" in
  POk (label, tmdb_id).

Definition parse_tmdb_search_to_cards (data : pyval) (keyword : string) (limit : Z)
    : pyres (list (pyval * pyval) * list pyval) :=
  let keyword_l := lower (strip keyword) in
  let! raw := parse_raw_items data in
  match raw with
  | None => POk ([], [])
  | Some raw_items =>
      let! matched := filterM (title_has keyword_l) raw_items in
      let final_list := match matched with [] => raw_items | _ => matched end in
      let! suggestions := mapM suggestion (py_take 10 final_list) in
      let! cards := mapM search_card (py_take limit final_list) in
      POk (suggestions, cards)
  end.

(** What the page shows, in call order. *)
Inductive st_event :=
| EInfo (body : string)
| EColumns (spec : Z)
| EColumn (c : Z)
| EImage (image : pyval)
| ENoPoster
| EButton (label key : string)
| EMarkdown (body : string).

(** A run of [poster_grid] ends normally or in [goto_details(tmdb_id)],
    whose [st.rerun()] stops the script. *)
Inductive grid_exit :=
| GridDone
| GridGoto (tmdb_id : pyval).

(** [st.button(..., key=k)] is true in the run that follows a click on it. *)
Variable clicked : string -> bool.

Definition button_key (key_prefix : string) (r c idx : Z) (tmdb_id : pyval)
    : pyres string :=
  let! rs := py_format (PInt r) in
  let! cs := py_format (PInt c) in
  let! is := py_format (PInt idx) in
  let! ts := py_format tmdb_id in
  POk (String.append key_prefix (String.append "_" (String.append rs
         (String.append "_" (String.append cs (String.append "_"
           (String.append is (String.append "_" ts)))))))).

(** The body of the inner loop once [m = cards[idx]; idx += 1] is done. *)
Definition grid_cell (key_prefix : string) (r c idx : Z) (m : pyval)
    : pyres (list st_event * grid_exit) :=
  let! tmdb_id := py_get m "tmdb_id" PNone in
  let! title := py_get m "title" (PStr "Untitled") in
  let! poster := py_get m "poster_url" PNone in
  let img := if truthy poster then EImage poster else ENoPoster in
  let! key := button_key key_prefix r c idx tmdb_id in
  if clicked key && truthy tmdb_id then
    POk ([EColumn c; img; EButton "Open" key], GridGoto tmdb_id)
  else
    let! t := py_format title in
    POk ([EColumn c; img; EButton "Open" key;
          EMarkdown (String.append "<div class='movie-title'>" (String.append t "</div>"))],
         GridDone).

Definition py_range (n : Z) : list Z := map Z.of_nat (seq 0 (Z.to_nat n)).

(** [for c in range(cols)] of row [r], from index [idx]. *)
Fixpoint grid_row (key_prefix : string) (cards : pyval) (n r : Z) (cs : list Z)
    (idx : Z) : pyres (list st_event * Z * grid_exit) :=
  match cs with
  | [] => POk ([], idx, GridDone)
  | c :: cs' =>
      if n <=? idx then POk ([], idx, GridDone)
      else
        let! m := py_index cards idx in
        let! res := grid_cell key_prefix r c (idx + 1) m in
        let '(evs, ex) := res in
        match ex with
        | GridGoto _ => POk (evs, idx + 1, ex)
        | GridDone =>
            let! rest := grid_row key_prefix cards n r cs' (idx + 1) in
            let '(evs', idx', ex') := rest in
            POk (evs ++ evs', idx', ex')
        end
  end.

(** [for r in range(rows)]; [st.columns] refuses a spec [<= 0]. *)
Fixpoint grid_rows (key_prefix : string) (cards : pyval) (n cols : Z) (rs : list Z)
    (idx : Z) : pyres (list st_event * grid_exit) :=
  match rs with
  | [] => POk ([], GridDone)
  | r :: rs' =>
      if cols <=? 0 then PErr StreamlitAPIException
      else
        let! res := grid_row key_prefix cards n r (py_range cols) idx in
        let '(evs, idx', ex) := res in
        match ex with
        | GridGoto _ => POk (EColumns cols :: evs, ex)
        | GridDone =>
            let! rest := grid_rows key_prefix cards n cols rs' idx' in
            let '(evs', ex') := rest in
            POk (EColumns cols :: evs ++ evs', ex')
        end
  end.

(** [a // b] *)
Definition py_floordiv (a b : Z) : pyres Z :=
  if b =? 0 then PErr ZeroDivisionError else POk (a / b).

Definition poster_grid (cards : pyval) (cols : Z) (key_prefix : string)
    : pyres (list st_event * grid_exit) :=
  if negb (truthy cards) then POk ([EInfo "No movies to show."], GridDone)
  else
    let! n := py_len cards in
    let! rows := py_floordiv (n + cols - 1) cols in
    grid_rows key_prefix cards n cols (py_range rows) 0.

End Client.

(** ** Routing: [st.session_state] and [st.query_params] *)


(** The routing block at the top of every run of [app.py]. *)
Definition route (ss : gmap string pyval) (qp : gmap string string) : gmap string pyval :=
  let ss1 := match ss !! "view" with Some _ => ss | None => <["view" := PStr "home"]> ss end in
  let ss2 := match ss1 !! "selected_tmdb_id" with
             | Some _ => ss1
             | None => <["selected_tmdb_id" := PNone]> ss1
             end in
  let ss3 := match qp !! "view" with
             | Some v => if String.eqb v "home" || String.eqb v "details"
                         then <["view" := PStr v]> ss2 else ss2
             | None => ss2
             end in
  match qp !! "id" with
  | Some i =>
      if String.eqb i "" then ss3
      else match py_int i with
           | Some n => <["view" := PStr "details"]> (<["selected_tmdb_id" := PInt n]> ss3)
           | None => ss3
           end
  | None => ss3
  end.

(** [goto_home()], up to its [st.rerun()]. *)
Definition goto_home (ss : gmap string pyval) (qp : gmap string string) : gmap string pyval * gmap string string :=
  (<["view" := PStr "home"]> ss, delete "id" (<["view" := "home"]> qp)).

(** [goto_details(tmdb_id)]: the new session and query parameters, and the
    exception raised before [st.rerun()], if any. *)
Definition goto_details (tmdb_id : pyval) (ss : gmap string pyval) (qp : gmap string string)
    : gmap string pyval * gmap string string * option pyexn :=
  let ss1 := <["view" := PStr "details"]> ss in
  match py_int_of tmdb_id with
  | PErr e => (ss1, qp, Some e)
  | POk n =>
      let ss2 := <["selected_tmdb_id" := PInt n]> ss1 in
      let qp1 := <["view" := "details"]> qp in
      match py_str_int n with
      | Some s => (ss2, <["id" := s]> qp1, None)
      | None => (ss2, qp1, Some ValueError)
      end
  end.

(** * Normalization *)

Module Norm.

Lemma is_space_lower_char c : is_space (lower_char c) = is_space c.
Proof. destruct c as [[] [] [] [] [] [] [] []]; reflexivity. Qed.

Lemma lower_char_idem c : lower_char (lower_char c) = lower_char c.
Proof. destruct c as [[] [] [] [] [] [] [] []]; reflexivity. Qed.

Lemma lower_idem s : lower (lower s) = lower s.
Proof. induction s as [|c s IH]; simpl; [done|]. by rewrite lower_char_idem, IH. Qed.

Lemma lower_empty s : lower s = EmptyString <-> s = EmptyString.
Proof. destruct s; simpl; split; congruence. Qed.

Lemma lstrip_lower s : lstrip (lower s) = lower (lstrip s).
Proof.
  induction s as [|c s IH]; simpl; [done|].
  rewrite is_space_lower_char. by destruct (is_space c).
Qed.

Lemma rstrip_lower s : rstrip (lower s) = lower (rstrip s).
Proof.
  induction s as [|c s IH]; simpl; [done|].
  rewrite IH, is_space_lower_char.
  destruct (rstrip s); simpl; [by destruct (is_space c)|done].
Qed.

Lemma rstrip_idem s : rstrip (rstrip s) = rstrip s.
Proof.
  induction s as [|c s IH]; simpl; [done|].
  destruct (rstrip s) as [|d r] eqn:Hr.
  - destruct (is_space c) eqn:Hc; simpl; [done|]. by rewrite Hc.
  - change (rstrip (String c (String d r))) with
      (match rstrip (String d r) with
       | EmptyString => if is_space c then EmptyString else String c EmptyString
       | _ => String c (rstrip (String d r))
       end).
    by rewrite IH.
Qed.

(** [rstrip] keeps the first character unless it drops everything. *)
Lemma rstrip_head c s :
  rstrip (String c s) = EmptyString \/
  exists r, rstrip (String c s) = String c r.
Proof.
  simpl. destruct (rstrip s); [destruct (is_space c)|]; eauto.
Qed.

Lemma lstrip_head s :
  lstrip s = EmptyString \/
  exists c r, lstrip s = String c r /\ is_space c = false.
Proof.
  induction s as [|c s IH]; simpl; [by left|].
  destruct (is_space c) eqn:Hc; [done|eauto].
Qed.

Lemma lstrip_rstrip_lstrip s : lstrip (rstrip (lstrip s)) = rstrip (lstrip s).
Proof.
  destruct (lstrip_head s) as [-> | (c & r & -> & Hc)]; [done|].
  destruct (rstrip_head c r) as [-> | [r' ->]]; simpl; [done|].
  by rewrite Hc.
Qed.

Lemma strip_idem s : strip (strip s) = strip s.
Proof. unfold strip. by rewrite lstrip_rstrip_lstrip, rstrip_idem. Qed.

Lemma strip_lower s : strip (lower s) = lower (strip s).
Proof. unfold strip. by rewrite lstrip_lower, rstrip_lower. Qed.

Lemma norm_title_idem t : _norm_title (_norm_title t) = _norm_title t.
Proof.
  unfold _norm_title. by rewrite strip_lower, strip_idem, lower_idem.
Qed.

End Norm.

(** * Index construction *)

Module TitleMap.

Lemma build_from_app acc l1 l2 :
  build_title_map_from acc (l1 ++ l2)
  = build_title_map_from (build_title_map_from acc l1) l2.
Proof.
  revert acc. induction l1 as [|[k v] l1 IH]; intros acc; simpl; [done|].
  apply IH.
Qed.

Lemma build_from_other acc l k :
  Forall (fun kv => _norm_title kv.1 <> k) l ->
  build_title_map_from acc l !! k = acc !! k.
Proof.
  revert acc. induction l as [|[k' v] l IH]; intros acc Hl; simpl; [done|].
  inversion Hl as [|? ? Hk Hl']; subst. simpl in Hk.
  rewrite IH by done. by rewrite lookup_insert_ne.
Qed.

Lemma build_from_keys acc l k v :
  (forall k0 v0, acc !! k0 = Some v0 -> _norm_title k0 = k0) ->
  build_title_map_from acc l !! k = Some v -> _norm_title k = k.
Proof.
  revert acc. induction l as [|[k' v'] l IH]; intros acc Hacc; simpl; [eauto|].
  apply IH. intros k0 v0. destruct (decide (k0 = _norm_title k')) as [->|Hne].
  - intros _. apply Norm.norm_title_idem.
  - rewrite lookup_insert_ne by congruence. apply Hacc.
Qed.

End TitleMap.

(** * The ranking loop *)

Module Loop.

(** Turn the boolean comparisons of the loop guard into propositions. *)
Ltac zbool :=
  repeat match goal with
  | H : (_ >=? _) = _ |- _ => rewrite Z.geb_leb in H
  | H : (_ <=? _) = true |- _ => apply Z.leb_le in H
  | H : (_ <=? _) = false |- _ => apply Z.leb_gt in H
  end.

Definition keep (idx : nat) (i : nat) : bool := negb (Nat.eqb i idx).

Definition row_pair (titles : list string) (scores : list Z) (i : nat)
    : string * Z := (nth i titles ""%string, nth i scores 0).

Lemma n_taken_one top_n len :
  top_n <= Z.of_nat len + 1 -> n_taken top_n len = 1%nat.
Proof. intros H. unfold n_taken. lia. Qed.

Lemma n_taken_succ top_n len :
  Z.of_nat len + 1 < top_n ->
  n_taken top_n len = S (n_taken top_n (S len)).
Proof. intros H. unfold n_taken. lia. Qed.

(** When the loop returns, it returned [out] followed by the first
    [n_taken] rows of [order] other than [idx]. *)
Lemma rec_loop_ok titles scores idx top_n order out l :
  rec_loop titles scores idx top_n order out = Ok l ->
  l = out ++ map (row_pair titles scores)
               (firstn (n_taken top_n (length out)) (List.filter (keep idx) order)).
Proof.
  revert out. induction order as [|i order IH]; intros out Hl; simpl in Hl.
  - injection Hl as <-. by rewrite firstn_nil, app_nil_r.
  - unfold keep at 1; simpl. destruct (Nat.eqb i idx) eqn:Hi; simpl; [by apply IH|].
    destruct (titles !! i) as [t|] eqn:Ht; [|discriminate].
    rewrite length_app in Hl; simpl in Hl.
    destruct (Z.of_nat (length out + 1) >=? top_n) eqn:Hge; zbool.
    + injection Hl as <-. rewrite n_taken_one by lia. simpl.
      unfold row_pair. by rewrite (nth_lookup_Some _ _ _ _ Ht).
    + rewrite n_taken_succ by lia. simpl.
      rewrite (IH _ Hl), length_app, Nat.add_1_r; simpl.
      unfold row_pair at 2. rewrite (nth_lookup_Some _ _ _ _ Ht).
      by rewrite <- app_assoc.
Qed.

(** With every row of [order] inside the corpus, the loop returns. *)
Lemma rec_loop_total titles scores idx top_n order out :
  Forall (fun i => (i < length titles)%nat) order ->
  exists l, rec_loop titles scores idx top_n order out = Ok l.
Proof.
  revert out. induction order as [|i order IH]; intros out Hall; simpl; [eauto|].
  inversion Hall as [|? ? Hi Hall']; subst.
  destruct (Nat.eqb i idx); [by apply IH|].
  destruct (lookup_lt_is_Some_2 titles i Hi) as [t ->].
  destruct (_ >=? top_n); eauto.
Qed.

(** Prefix-stability of the loop for [0 < n1 <= n2]. *)
Lemma rec_loop_prefix titles scores idx n1 n2 order out l2 :
  rec_loop titles scores idx n2 order out = Ok l2 ->
  Z.of_nat (length out) < n1 -> n1 <= n2 ->
  rec_loop titles scores idx n1 order out = Ok (firstn (Z.to_nat n1) l2).
Proof.
  revert out. induction order as [|i order IH]; intros out Hl2 Hlt Hle;
    simpl in *.
  - injection Hl2 as <-. rewrite firstn_all2 by lia. done.
  - destruct (Nat.eqb i idx); [by apply IH|].
    destruct (titles !! i) as [t|]; [|discriminate].
    set (out' := out ++ [(t, nth i scores 0)]) in *.
    assert (Hlen : length out' = S (length out))
      by (subst out'; rewrite length_app; simpl; lia).
    destruct (Z.of_nat (length out') >=? n1) eqn:H1; zbool.
    + assert (Heq : Z.to_nat n1 = length out') by lia.
      destruct (Z.of_nat (length out') >=? n2) eqn:H2; zbool.
      * injection Hl2 as <-. by rewrite firstn_all2 by lia.
      * apply rec_loop_ok in Hl2. rewrite Hl2, Heq.
        rewrite <- (Nat.add_0_r (length out')), firstn_app_2. simpl.
        by rewrite app_nil_r.
    + destruct (Z.of_nat (length out') >=? n2) eqn:H2; zbool; [lia|].
      apply IH; [done|lia|done].
Qed.

End Loop.

(** * The insertion sort meets the [np.argsort] contract *)

Module Isort.

Lemma insert_by_perm leb x l : Permutation (insert_by leb x l) (x :: l).
Proof.
  induction l as [|y l IH]; simpl; [done|].
  destruct (leb x y); [done|].
  rewrite IH. apply perm_swap.
Qed.

Lemma isort_perm leb l : Permutation (isort leb l) l.
Proof.
  induction l as [|x l IH]; simpl; [done|].
  rewrite insert_by_perm. by constructor.
Qed.

Section Sorted.

Variable R : nat -> nat -> Prop.
Variable leb : nat -> nat -> bool.
Hypothesis leb_true : forall a b, leb a b = true -> R a b.
Hypothesis leb_false : forall a b, leb a b = false -> R b a.

Lemma insert_by_sorted x l : Sorted R l -> Sorted R (insert_by leb x l).
Proof.
  induction l as [|y l IH]; intros Hs; simpl; [by repeat constructor|].
  destruct (leb x y) eqn:Hxy.
  - constructor; [done|]. constructor. by apply leb_true.
  - apply Sorted_inv in Hs as [Hs Hhd]. constructor; [by apply IH|].
    destruct l as [|z l]; simpl.
    + constructor. by apply leb_false.
    + destruct (leb x z); constructor; [by apply leb_false|].
      by inversion Hhd.
Qed.

Lemma isort_sorted l : Sorted R (isort leb l).
Proof.
  induction l as [|x l IH]; simpl; [constructor|]. by apply insert_by_sorted.
Qed.

End Sorted.

Lemma argsort_by_contract tb : argsort_contract (argsort_by tb).
Proof.
  intros v. unfold argsort_by. split; [apply isort_perm|].
  apply isort_sorted; unfold key_leb; intros a b H.
  - apply orb_true_iff in H as [H|H]; [lia|].
    apply andb_true_iff in H as [H _]; lia.
  - apply orb_false_iff in H as [H1 H2]. lia.
Qed.

End Isort.

(** * Auxiliary facts on prefixes and filters *)

Module ListAux.

Lemma in_firstn {A} n (l : list A) x : In x (firstn n l) -> In x l.
Proof.
  intros H. rewrite <- (firstn_skipn n l). apply in_or_app. by left.
Qed.


Lemma StronglySorted_filter {A} (R : A -> A -> Prop) f l :
  StronglySorted R l -> StronglySorted R (List.filter f l).
Proof.
  induction l as [|x l IH]; intros H; simpl; [constructor|].
  apply StronglySorted_inv in H as [Hl Hx].
  destruct (f x); [|by apply IH].
  constructor; [by apply IH|].
  apply List.Forall_forall. intros y Hy. apply filter_In in Hy as [Hy _].
  by eapply List.Forall_forall in Hx.
Qed.

Lemma StronglySorted_firstn {A} (R : A -> A -> Prop) n l :
  StronglySorted R l -> StronglySorted R (firstn n l).
Proof.
  revert l. induction n as [|n IH]; intros [|x l] H; simpl; try constructor.
  - apply StronglySorted_inv in H as [Hl _]. by apply IH.
  - apply StronglySorted_inv in H as [_ Hx].
    apply List.Forall_forall. intros y Hy. apply in_firstn in Hy.
    by eapply List.Forall_forall in Hx.
Qed.

Lemma StronglySorted_map {A B} (R : A -> A -> Prop) (R' : B -> B -> Prop)
    (f : A -> B) l :
  (forall x y, R x y -> R' (f x) (f y)) ->
  StronglySorted R l -> StronglySorted R' (map f l).
Proof.
  intros Hf. induction l as [|x l IH]; intros H; simpl; [constructor|].
  apply StronglySorted_inv in H as [Hl Hx]. constructor; [by apply IH|].
  apply Forall_map. eapply Forall_impl; [exact Hx|]. intros y. apply Hf.
Qed.

End ListAux.

(** * The recommendation query *)

Module Recommend.

Section WithArgsort.

Variable argsort : list Z -> list nat.

Lemma unfold_known st title top_n idx q :
  TITLE_TO_IDX st !! _norm_title title = Some idx ->
  tfidf_matrix st !! idx = Some q ->
  tfidf_recommend_titles argsort st title top_n
  = rec_loop (df st) (scores_of (tfidf_matrix st) q) idx top_n
      (argsort (map Z.opp (scores_of (tfidf_matrix st) q))) [].
Proof. intros Hidx Hq. unfold tfidf_recommend_titles. by rewrite Hidx, Hq. Qed.

Lemma consistent_row st title idx :
  consistent st -> TITLE_TO_IDX st !! _norm_title title = Some idx ->
  (idx < length (df st))%nat /\ exists q, tfidf_matrix st !! idx = Some q.
Proof.
  intros [Hlen Hall] Hidx. pose proof (Hall _ _ Hidx) as Hlt. simpl in Hlt.
  split; [done|]. apply lookup_lt_is_Some_2. lia.
Qed.

Hypothesis Hargsort : argsort_contract argsort.

Lemma order_perm (m : list (list Z)) q :
  Permutation (argsort (map Z.opp (scores_of m q))) (seq 0 (length m)).
Proof.
  destruct (Hargsort (map Z.opp (scores_of m q))) as [Hp _].
  unfold scores_of in Hp. rewrite !length_map in Hp. exact Hp.
Qed.

(** On a consistent state and a known title the query returns the first
    [n_taken top_n 0] rows of the ranking other than the query row. *)
Lemma known_result st title top_n idx :
  consistent st -> TITLE_TO_IDX st !! _norm_title title = Some idx ->
  exists q, tfidf_matrix st !! idx = Some q /\
  tfidf_recommend_titles argsort st title top_n
  = Ok (map (Loop.row_pair (df st) (scores_of (tfidf_matrix st) q))
          (firstn (n_taken top_n 0)
             (List.filter (Loop.keep idx)
                (argsort (map Z.opp (scores_of (tfidf_matrix st) q)))))).
Proof.
  intros Hc Hidx. destruct (consistent_row st title idx Hc Hidx) as [_ [q Hq]].
  exists q. split; [done|]. rewrite (unfold_known _ _ _ _ _ Hidx Hq).
  edestruct Loop.rec_loop_total as [l Hl]; [|rewrite Hl; f_equal; exact (Loop.rec_loop_ok _ _ _ _ _ _ _ Hl)].
  apply List.Forall_forall. intros i Hi. eapply Permutation_in in Hi; [|apply order_perm].
  apply in_seq in Hi. destruct Hc as [Hlen _]. lia.
Qed.


Lemma nth_opp (s : list Z) i : nth i (map Z.opp s) 0 = - nth i s 0.
Proof. revert i. induction s as [|x s IH]; intros [|i]; simpl; auto. Qed.

Lemma fst_row_pair titles scores i :
  fst (Loop.row_pair titles scores i) = nth i titles ""%string.
Proof. reflexivity. Qed.

(** Whatever the state, the rows a query returns are rows of the matrix. *)
Lemma recommend_rows_in_matrix st title top_n l :
  tfidf_recommend_titles argsort st title top_n = Ok l ->
  exists rows, map fst l = map (fun i => nth i (df st) ""%string) rows /\
               Forall (fun i => (i < length (tfidf_matrix st))%nat) rows.
Proof.
  unfold tfidf_recommend_titles.
  destruct (TITLE_TO_IDX st !! _norm_title title) as [idx|];
    [|intros H; injection H as <-; exists []; split; constructor].
  destruct (tfidf_matrix st !! idx) as [q|]; [|discriminate].
  intros Hl. apply Loop.rec_loop_ok in Hl. simpl in Hl. subst l.
  eexists. split.
  - rewrite map_map. apply map_ext. intros i. apply fst_row_pair.
  - apply List.Forall_forall. intros i Hi.
    apply ListAux.in_firstn, filter_In in Hi as [Hi _].
    eapply Permutation_in in Hi; [|apply order_perm]. apply in_seq in Hi. lia.
Qed.


(** Claim C2 (amended): whenever the query returns, the scores of the
    returned pairs are non-increasing. The order among equal scores is the
    one [np.argsort] produces. *)
Theorem recommend_sorted_by_score st title top_n l :
  tfidf_recommend_titles argsort st title top_n = Ok l ->
  Sorted (fun a b => snd b <= snd a) l.
Proof.
  unfold tfidf_recommend_titles.
  destruct (TITLE_TO_IDX st !! _norm_title title) as [idx|];
    [|intros H; injection H as <-; constructor].
  destruct (tfidf_matrix st !! idx) as [q|]; [|discriminate].
  intros Hl. apply Loop.rec_loop_ok in Hl. simpl in Hl. subst l.
  set (scores := scores_of (tfidf_matrix st) q).
  apply StronglySorted_Sorted.
  eapply ListAux.StronglySorted_map;
    [|apply ListAux.StronglySorted_firstn, ListAux.StronglySorted_filter,
        Sorted_StronglySorted; [|apply (Hargsort (map Z.opp scores))]].
  - intros i j Hij. cbv beta in Hij. simpl. rewrite !nth_opp in Hij. lia.
  - intros i j k. lia.
Qed.

(** Claim C3: a title whose normalized form is not in the Title Index gives
    the empty sequence, whatever [top_n] is. *)
Theorem recommend_unknown_title_empty st title top_n :
  TITLE_TO_IDX st !! _norm_title title = None ->
  tfidf_recommend_titles argsort st title top_n = Ok [].
Proof. intros H. unfold tfidf_recommend_titles. by rewrite H. Qed.

(** Claim C4 (amended): [top_n <= 0] raises no error. On a consistent state
    the query returns a sequence of at most one pair, the empty one for a
    title that is not in the index. *)
Theorem recommend_nonpositive_top_n_no_error st title top_n :
  consistent st -> top_n <= 0 ->
  exists l, tfidf_recommend_titles argsort st title top_n = Ok l /\
            (length l <= 1)%nat /\
            (TITLE_TO_IDX st !! _norm_title title = None -> l = []).
Proof.
  intros Hc Hle.
  destruct (TITLE_TO_IDX st !! _norm_title title) as [idx|] eqn:Hidx.
  - destruct (known_result st title top_n idx Hc Hidx) as [q [_ ->]].
    eexists. split; [reflexivity|]. split; [|discriminate]. rewrite length_map.
    etransitivity; [apply firstn_le_length|]. unfold n_taken. lia.
  - exists []. unfold tfidf_recommend_titles. rewrite Hidx.
    split; [done|]. split; [simpl; lia|done].
Qed.

(** Claim C6 (amended): for [0 < n1 < n2], whenever the query with [n2]
    returns [l2], the query with [n1] returns the first [n1] pairs of [l2]. *)
Theorem recommend_prefix_stable st title n1 n2 l2 :
  0 < n1 -> n1 < n2 ->
  tfidf_recommend_titles argsort st title n2 = Ok l2 ->
  tfidf_recommend_titles argsort st title n1 = Ok (firstn (Z.to_nat n1) l2).
Proof.
  intros H1 H12. unfold tfidf_recommend_titles.
  destruct (TITLE_TO_IDX st !! _norm_title title) as [idx|];
    [|intros H; injection H as <-; by rewrite firstn_nil].
  destruct (tfidf_matrix st !! idx) as [q|]; [|discriminate].
  intros Hl2. eapply Loop.rec_loop_prefix; [exact Hl2|simpl; lia|lia].
Qed.

(** Claim C7: the lookup key is [_norm_title title], and [_norm_title] is
    idempotent, so querying a title or its normal form gives the same result;
    titles with the same normal form give the same result; and every key of
    an index built by [build_title_map] is already a normal form. *)
Theorem recommend_normalized_lookup st title top_n :
  tfidf_recommend_titles argsort st (_norm_title title) top_n
    = tfidf_recommend_titles argsort st title top_n /\
  (forall title', _norm_title title' = _norm_title title ->
     tfidf_recommend_titles argsort st title' top_n
       = tfidf_recommend_titles argsort st title top_n) /\
  (forall indices k v, build_title_map indices !! k = Some v ->
     _norm_title k = k).
Proof.
  split; [|split].
  - unfold tfidf_recommend_titles. by rewrite Norm.norm_title_idem.
  - intros title' Heq. unfold tfidf_recommend_titles. by rewrite Heq.
  - intros indices k v. apply TitleMap.build_from_keys.
    intros k0 v0 H. by rewrite lookup_empty in H.
Qed.

Lemma recommend_m_run st title top_n :
  tfidf_recommend_titles_m argsort title top_n st
  = (tfidf_recommend_titles argsort st title top_n, st).
Proof.
  unfold tfidf_recommend_titles_m, tfidf_recommend_titles, bind, gets, ret.
  destruct (TITLE_TO_IDX st !! _norm_title title) as [idx|]; [|done].
  by destruct (tfidf_matrix st !! idx).
Qed.

(** Claim C8: running the query twice in a row on the loaded state returns
    the same result both times and leaves the state unchanged. *)
Theorem recommend_deterministic_read_only st title top_n :
  let '(r1, st1) := tfidf_recommend_titles_m argsort title top_n st in
  let '(r2, st2) := tfidf_recommend_titles_m argsort title top_n st1 in
  r1 = r2 /\ st1 = st /\ st2 = st /\
  r1 = tfidf_recommend_titles argsort st title top_n.
Proof. rewrite !recommend_m_run. auto. Qed.

(** Claim C10: on a consistent state with at least two corpus rows, a known
    title with [top_n <= 0] gives exactly one pair: the length check runs
    only after the first append. *)
Theorem recommend_nonpositive_top_n_one_pair st title top_n idx :
  consistent st -> TITLE_TO_IDX st !! _norm_title title = Some idx ->
  top_n <= 0 -> (2 <= length (df st))%nat ->
  exists t s, tfidf_recommend_titles argsort st title top_n = Ok [(t, s)].
Proof.
  intros Hc Hidx Hle H2.
  destruct (known_result st title top_n idx Hc Hidx) as [q [_ ->]].
  replace (n_taken top_n 0) with 1%nat by (unfold n_taken; lia).
  set (j := if Nat.eqb idx 0 then 1%nat else 0%nat).
  assert (Hin : In j (List.filter (Loop.keep idx)
                        (argsort (map Z.opp (scores_of (tfidf_matrix st) q))))).
  { apply filter_In. split.
    - eapply Permutation_in; [symmetry; apply order_perm|].
      apply in_seq. destruct Hc as [Hlen _].
      subst j. destruct (Nat.eqb idx 0); lia.
    - unfold Loop.keep, j. destruct (Nat.eqb idx 0) eqn:E.
      + apply Nat.eqb_eq in E. subst. done.
      + apply Nat.eqb_neq in E. rewrite (proj2 (Nat.eqb_neq 0 idx)); auto. }
  destruct (List.filter _ _) as [|a rest]; [done|].
  simpl. eauto.
Qed.

End WithArgsort.
End Recommend.

(** * Index construction and start-up *)

Module Startup.

(** Claim C9: when several entries of [indices] share a normalized title,
    the built index maps it to the row of the last of them, in iteration
    order (a total function: no error is raised). *)
Theorem build_title_map_last_write_wins pre k0 v post k :
  _norm_title k0 = k ->
  Forall (fun kv => _norm_title kv.1 <> k) post ->
  build_title_map (pre ++ (k0, v) :: post) !! k = Some v.
Proof.
  intros Hk Hpost. unfold build_title_map.
  rewrite TitleMap.build_from_app. simpl.
  rewrite TitleMap.build_from_other by done. subst k. apply lookup_insert_eq.
Qed.

(** Claim C5 (amended): [lifespan] fails exactly when an artifact cannot be
    loaded: a file is missing, [pickle.load] raises on it, the unpickled
    index has no [items()], or [int] rejects one of its values. Otherwise it
    loads the three artifacts as they are, with no check of their row counts,
    and a query on the loaded state only ever returns corpus rows that have a
    matrix row: corpus rows past the end of the matrix are silently left out. *)
Theorem lifespan_loads_without_check argsort (Hargsort : argsort_contract argsort) :
  (forall df_file indices_file matrix_file st,
     lifespan df_file indices_file matrix_file = Ok st <->
     exists d items kvs m,
       df_file = Unpickled d /\ indices_file = Unpickled (IndexMap items) /\
       int_values items = Ok kvs /\ matrix_file = Unpickled m /\
       st = mkState d m (build_title_map kvs)) /\
  (forall df_file indices_file matrix_file st title top_n l,
     lifespan df_file indices_file matrix_file = Ok st ->
     tfidf_recommend_titles argsort st title top_n = Ok l ->
     exists rows, map fst l = map (fun i => nth i (df st) ""%string) rows /\
                  Forall (fun i => (i < length (tfidf_matrix st))%nat) rows).
Proof.
  split.
  - intros df_file indices_file matrix_file st. split.
    + unfold lifespan, load_title_map. intros H.
      destruct df_file as [| |d]; try discriminate.
      destruct indices_file as [| |[items|]]; try discriminate.
      destruct (int_values items) as [kvs|e] eqn:E; try discriminate.
      destruct matrix_file as [| |m]; try discriminate.
      injection H as <-. exists d, items, kvs, m. auto.
    + intros (d & items & kvs & m & -> & -> & E & -> & ->).
      unfold lifespan, load_title_map. by rewrite E.
  - intros _ _ _ st title top_n l _ Hl.
    exact (Recommend.recommend_rows_in_matrix argsort Hargsort st title top_n l Hl).
Qed.

End Startup.

(** * Concrete instances *)

Definition load_or_empty (r : result State) : State :=
  match r with Ok st => st | Err _ => mkState [] [] ∅ end.


(** Four rows in two pairs of equal scores. *)
Definition st_ties : State :=
  load_or_empty (lifespan (Unpickled ["A"; "B"; "C"; "D"])
                          (Unpickled (IndexMap [("A", IntOk 0); ("B", IntOk 1);
                                                ("C", IntOk 2); ("D", IntOk 3)]))
                          (Unpickled [[1]; [1]; [2]; [2]])).

Lemma st_dark_consistent : consistent st_dark.
Proof. apply (bool_decide_unpack _). vm_compute. exact I. Qed.


(** * Witnesses *)


Lemma recommend_sorted_by_score_witness :
  Sorted (fun a b => snd b <= snd a)
    [("The Dark Knight Rises", 9); ("Batman Begins", 7)].
Proof.
  apply (Recommend.recommend_sorted_by_score argsort_stable
           (Isort.argsort_by_contract _) st_dark "the dark knight" 2).
  vm_compute. reflexivity.
Defined.

Lemma recommend_unknown_title_empty_witness :
  tfidf_recommend_titles argsort_stable st_dark "Nonexistent Movie XYZ" 5 = Ok [].
Proof.
  apply (Recommend.recommend_unknown_title_empty argsort_stable st_dark).
  vm_compute. reflexivity.
Defined.

Lemma recommend_nonpositive_top_n_no_error_witness :
  exists l, tfidf_recommend_titles argsort_stable st_dark "Up" (-3) = Ok l /\
            (length l <= 1)%nat /\
            (TITLE_TO_IDX st_dark !! _norm_title "Up" = None -> l = []).
Proof.
  apply (Recommend.recommend_nonpositive_top_n_no_error argsort_stable
           (Isort.argsort_by_contract _) st_dark "Up" (-3)).
  - exact st_dark_consistent.
  - lia.
Defined.

Lemma recommend_prefix_stable_witness :
  tfidf_recommend_titles argsort_stable st_dark "the dark knight" 1
  = Ok (firstn 1 [("The Dark Knight Rises", 9); ("Batman Begins", 7)]).
Proof.
  apply (Recommend.recommend_prefix_stable argsort_stable st_dark
           "the dark knight" 1 2).
  - lia.
  - lia.
  - vm_compute. reflexivity.
Defined.

Lemma recommend_normalized_lookup_witness :
  tfidf_recommend_titles argsort_stable st_dark " The DARK Knight  " 2
  = tfidf_recommend_titles argsort_stable st_dark "the dark knight" 2.
Proof.
  destruct (Recommend.recommend_normalized_lookup argsort_stable st_dark
              "the dark knight" 2) as [_ [H _]].
  apply H. vm_compute. reflexivity.
Defined.

Lemma recommend_nonpositive_top_n_one_pair_witness :
  exists t s, tfidf_recommend_titles argsort_stable st_dark "the dark knight" 0
              = Ok [(t, s)].
Proof.
  apply (Recommend.recommend_nonpositive_top_n_one_pair argsort_stable
           (Isort.argsort_by_contract _) st_dark "the dark knight" 0 0).
  - exact st_dark_consistent.
  - vm_compute. reflexivity.
  - lia.
  - vm_compute. lia.
Defined.

Lemma build_title_map_last_write_wins_witness :
  build_title_map ([("The Thing", 4%nat)] ++ ("the thing ", 7%nat) :: [("Up", 3%nat)])
    !! "the thing"%string = Some 7%nat.
Proof.
  apply Startup.build_title_map_last_write_wins.
  - vm_compute. reflexivity.
  - repeat constructor; vm_compute; discriminate.
Defined.

Lemma lifespan_loads_without_check_witness :
  lifespan (Unpickled ["A"; "B"; "C"])
           (Unpickled (IndexMap [("A", IntOk 0); ("B", IntOk 1); ("C", IntOk 2)]))
           (Unpickled [[1]; [1]])
  = Ok (mkState ["A"; "B"; "C"] [[1]; [1]]
                (build_title_map [("A", 0%nat); ("B", 1%nat); ("C", 2%nat)])) /\
  lifespan (Unpickled ["A"]) (Unpickled (IndexMap [("A", IntRejected)]))
           (Unpickled [[1]]) = Err IntError /\
  exists rows,
    map fst [("B", 1)] = map (fun i => nth i ["A"; "B"; "C"] ""%string) rows /\
    Forall (fun i => (i < 2)%nat) rows.
Proof.
  destruct (Startup.lifespan_loads_without_check argsort_stable
              (Isort.argsort_by_contract _)) as [Hiff Hrows].
  split; [|split].
  - apply Hiff. exists ["A"; "B"; "C"], [("A", IntOk 0); ("B", IntOk 1); ("C", IntOk 2)],
      [("A", 0%nat); ("B", 1%nat); ("C", 2%nat)], [[1]; [1]].
    repeat split; reflexivity.
  - destruct (lifespan (Unpickled ["A"]) (Unpickled (IndexMap [("A", IntRejected)]))
                (Unpickled [[1]])) as [st|e] eqn:E.
    + apply Hiff in E as (d & items & kvs & m & _ & Hi & Hk & _ & _).
      injection Hi as <-. discriminate Hk.
    + vm_compute in E. rewrite <- E. reflexivity.
  - apply (Hrows (Unpickled ["A"; "B"; "C"])
             (Unpickled (IndexMap [("A", IntOk 0); ("B", IntOk 1); ("C", IntOk 2)]))
             (Unpickled [[1]; [1]])
             (mkState ["A"; "B"; "C"] [[1]; [1]]
                (build_title_map [("A", 0%nat); ("B", 1%nat); ("C", 2%nat)]))
             "A" 5); vm_compute; reflexivity.
Defined.

(** * Counterexamples *)


(** C2: the keys of the query "A" on [st_ties] are [-1, -1, -2, -2].
    [argsort_ties_reversed] meets the [np.argsort] contract and returns the
    tied positions in reverse, [3, 2, 1, 0]; numpy's default argsort returns
    this permutation on these keys (its small-array sorting network puts
    each pair of equal keys in reverse). Rows 2 and 3 score the same, and
    the query returns row 3 ("D") before row 2 ("C"). *)
Lemma recommend_ties_not_row_order_cex :
  argsort_contract argsort_ties_reversed /\
  map Z.opp (scores_of (tfidf_matrix st_ties) [1]) = [-1; -1; -2; -2] /\
  argsort_ties_reversed [-1; -1; -2; -2] = [3; 2; 1; 0]%nat /\
  tfidf_recommend_titles argsort_ties_reversed st_ties "A" 3
  = Ok [("D", 2); ("C", 2); ("B", 1)].
Proof.
  split; [apply Isort.argsort_by_contract|].
  split; [|split]; vm_compute; reflexivity.
Qed.

(** C4: [top_n = 0] raises no error; it returns one pair. *)
Lemma recommend_top_n_zero_no_error_cex :
  tfidf_recommend_titles argsort_stable st_dark "the dark knight" 0
  = Ok [("The Dark Knight Rises", 9)].
Proof. vm_compute. reflexivity. Qed.

(** C5: a 3-row corpus and a 2-row matrix are loaded, and the query then
    ranks only the first two rows: row "C" is silently left out. *)
Lemma lifespan_accepts_row_mismatch_cex :
  exists st,
    lifespan (Unpickled ["A"; "B"; "C"])
             (Unpickled (IndexMap [("A", IntOk 0); ("B", IntOk 1); ("C", IntOk 2)]))
             (Unpickled [[1]; [1]]) = Ok st /\
    length (df st) = 3%nat /\ length (tfidf_matrix st) = 2%nat /\
    tfidf_recommend_titles argsort_stable st "A" 5 = Ok [("B", 1)].
Proof. eexists. split; [reflexivity|]. repeat split; vm_compute; reflexivity. Qed.

(** C6: with [n1 = 0 < n2 = 1] the query with [n1] is not the first [0]
    pairs (the empty list) of the query with [n2]. *)
Lemma recommend_prefix_zero_cex :
  tfidf_recommend_titles argsort_stable st_dark "the dark knight" 1
    = Ok [("The Dark Knight Rises", 9)] /\
  tfidf_recommend_titles argsort_stable st_dark "the dark knight" 0
    <> Ok (firstn 0 [("The Dark Knight Rises", 9)]).
Proof. split; vm_compute; [reflexivity|discriminate]. Qed.

(** * Integer parsing and printing *)

Module PyInt.

Fixpoint all_chars (p : ascii -> bool) (s : string) : bool :=
  match s with
  | EmptyString => true
  | String c r => p c && all_chars p r
  end.

Lemma append_cons c (a b : string) :
  String.append (String c a) b = String c (String.append a b).
Proof. reflexivity. Qed.

Lemma append_nil (b : string) : String.append EmptyString b = b.
Proof. reflexivity. Qed.

Lemma append_assoc (a b c : string) :
  String.append (String.append a b) c = String.append a (String.append b c).
Proof.
  induction a as [|x a IH]; rewrite ?append_cons, ?append_nil; simpl;
    [done|by rewrite IH].
Qed.

Lemma length_append (a b : string) :
  String.length (String.append a b) = (String.length a + String.length b)%nat.
Proof.
  induction a as [|x a IH]; rewrite ?append_cons, ?append_nil; simpl;
    [done|by rewrite IH].
Qed.

Lemma append_empty (a : string) : String.append a EmptyString = a.
Proof.
  induction a as [|x a IH]; rewrite ?append_cons, ?append_nil; simpl;
    [done|by rewrite IH].
Qed.

Lemma digit_facts c :
  is_digit c = true ->
  is_space c = false /\ Ascii.eqb c "_" = false /\ Ascii.eqb c "t" = false /\
  Ascii.eqb c "-" = false /\ Ascii.eqb c "+" = false.
Proof.
  destruct c as [[] [] [] [] [] [] [] []]; vm_compute; intros H;
    try discriminate; repeat split.
Qed.

Lemma digit_char_ok d :
  0 <= d < 10 -> is_digit (digit_char d) = true /\ digit_value (digit_char d) = d.
Proof.
  intros H.
  assert (d = 0 \/ d = 1 \/ d = 2 \/ d = 3 \/ d = 4 \/ d = 5 \/ d = 6 \/
          d = 7 \/ d = 8 \/ d = 9) as Hd by lia.
  repeat destruct Hd as [-> | Hd]; subst; split; reflexivity.
Qed.

(** Reading a digit does not depend on [prev]. *)
Lemma parse_digit_step c r a k p :
  is_digit c = true ->
  parse_digits (String c r) a k p = parse_digits r (a * 10 + digit_value c) (S k) true.
Proof.
  intros Hc. destruct (digit_facts c Hc) as (_ & Hu & _). simpl.
  by rewrite Hu, Hc.
Qed.

Lemma digits_fuel_S f n acc :
  digits_fuel (S f) n acc
  = if n / 10 =? 0 then String (digit_char (n mod 10)) acc
    else digits_fuel f (n / 10) (String (digit_char (n mod 10)) acc).
Proof. reflexivity. Qed.

(** The printed digits are read back as the number printed. *)
Lemma digits_fuel_spec f : forall n acc,
  0 <= n < 10 ^ Z.of_nat (S f) ->
  exists ds, digits_fuel (S f) n acc = String.append ds acc /\
    all_chars is_digit ds = true /\ (1 <= String.length ds)%nat /\
    forall rest a k p,
      parse_digits (String.append ds rest) a k p
      = parse_digits rest (a * 10 ^ Z.of_nat (String.length ds) + n)
          (k + String.length ds) true.
Proof.
  induction f as [|f IH]; intros n acc Hn.
  - assert (Hq : n / 10 = 0) by (rewrite Nat2Z.inj_succ in Hn; simpl in Hn;
                                   apply Z.div_small; lia).
    destruct (digit_char_ok (n mod 10)) as [Hd Hv]; [apply Z.mod_pos_bound; lia|].
    exists (String (digit_char (n mod 10)) EmptyString).
    simpl digits_fuel. rewrite Hq. rewrite ?append_cons, ?append_nil. split; [done|].
    split; [simpl; by rewrite Hd|]. split; [simpl; lia|].
    intros rest a k p. rewrite append_cons, append_nil, parse_digit_step by done.
    rewrite Hv.
    rewrite Z.mod_small by (rewrite Nat2Z.inj_succ in Hn; simpl in Hn; lia).
    cbn [String.length]. change (Z.of_nat 1) with 1. rewrite Z.pow_1_r.
    f_equal; lia.
  - destruct (digit_char_ok (n mod 10)) as [Hd Hv]; [apply Z.mod_pos_bound; lia|].
    rewrite (digits_fuel_S (S f)).
    destruct (Z.eqb_spec (n / 10) 0) as [Hq|Hq].
    + exists (String (digit_char (n mod 10)) EmptyString).
      split; [done|]. split; [simpl; by rewrite Hd|]. split; [simpl; lia|].
      intros rest a k p. rewrite append_cons, append_nil, parse_digit_step by done.
    rewrite Hv.
      cbn [String.length]. change (Z.of_nat 1) with 1. rewrite Z.pow_1_r.
      pose proof (Z.div_mod n 10). f_equal; lia.
    + destruct (IH (n / 10) (String (digit_char (n mod 10)) acc)) as
          (ds & Heq & Hall & Hlen & Hparse).
      { split; [apply Z.div_pos; lia|].
        apply Z.div_lt_upper_bound; [lia|].
        rewrite <- Z.pow_succ_r by lia. rewrite <- Nat2Z.inj_succ. lia. }
      exists (String.append ds (String (digit_char (n mod 10)) EmptyString)).
      rewrite Heq, append_assoc. split; [done|].
      split.
      { clear -Hall Hd. induction ds as [|x ds IHd]; simpl in *; [by rewrite Hd|].
        apply andb_true_iff in Hall as [-> H]. by apply IHd. }
      rewrite length_append. simpl. split; [lia|].
      intros rest a k p. rewrite append_assoc. rewrite ?append_cons, ?append_nil.
      rewrite Hparse, parse_digit_step by done. rewrite Hv.
      pose proof (Z.div_mod n 10).
      rewrite Nat2Z.inj_add, Z.pow_add_r by lia. simpl.
      f_equal; [|lia]. rewrite Z.pow_1_r. nia.
Qed.

Lemma str_nonneg_spec n : 0 <= n ->
  exists ds, str_nonneg n = ds /\
    all_chars is_digit ds = true /\ (1 <= String.length ds)%nat /\
    forall rest a k p,
      parse_digits (String.append ds rest) a k p
      = parse_digits rest (a * 10 ^ Z.of_nat (String.length ds) + n)
          (k + String.length ds) true.
Proof.
  intros Hn. unfold str_nonneg.
  destruct (digits_fuel_spec (S (Z.to_nat (Z.log2 n))) n EmptyString)
    as (ds & Heq & H); [|exists ds; by rewrite Heq, append_empty].
  split; [done|].
  pose proof (Z.log2_nonneg n).
  assert (n < 2 ^ (Z.log2 n + 1)).
  { destruct (Z.eq_dec n 0) as [->|Hne]; [simpl; lia|].
    rewrite Z.add_1_r. apply Z.log2_spec. lia. }
  assert (2 ^ (Z.log2 n + 1) <= 10 ^ (Z.log2 n + 1)).
  { apply Z.pow_le_mono_l. lia. }
  assert (10 ^ (Z.log2 n + 1) <= 10 ^ Z.of_nat (S (S (Z.to_nat (Z.log2 n))))).
  { apply Z.pow_le_mono_r; lia. }
  lia.
Qed.

Lemma lstrip_nonspace c r : is_space c = false -> lstrip (String c r) = String c r.
Proof. intros H. simpl. by rewrite H. Qed.

Lemma rstrip_nonspace s :
  all_chars (fun c => negb (is_space c)) s = true -> rstrip s = s.
Proof.
  induction s as [|c s IH]; simpl; [done|].
  intros [Hc Hs]%andb_true_iff. rewrite IH by done.
  destruct s; [|done]. apply negb_true_iff in Hc. by rewrite Hc.
Qed.

Lemma all_chars_impl (p q : ascii -> bool) s :
  (forall c, p c = true -> q c = true) -> all_chars p s = true -> all_chars q s = true.
Proof.
  intros Hpq. induction s as [|c s IH]; simpl; [done|].
  intros [Hc Hs]%andb_true_iff. by rewrite (Hpq c Hc), IH.
Qed.

Lemma digits_nonspace s :
  all_chars is_digit s = true -> all_chars (fun c => negb (is_space c)) s = true.
Proof.
  apply all_chars_impl. intros c Hc. destruct (digit_facts c Hc) as [-> _]. done.
Qed.

(** [int(str(n)) == n] *)
Lemma py_int_py_str_int n s : py_str_int n = Some s -> py_int s = Some n.
Proof.
  unfold py_str_int. destruct (str_nonneg_spec (Z.abs n)) as
      (ds & -> & Hall & Hlen & Hparse); [lia|].
  destruct (String.length ds <=? max_str_digits)%nat eqn:Hmax; [|discriminate].
  intros Hs. injection Hs as <-.
  assert (Hp : parse_unsigned ds = Some (Z.abs n)).
  { unfold parse_unsigned. rewrite <- (append_empty ds), Hparse. simpl.
    rewrite Hmax. f_equal. }
  destruct ds as [|c r]; [simpl in Hlen; lia|].
  simpl in Hall. apply andb_true_iff in Hall as [Hc Hr].
  destruct (digit_facts c Hc) as (Hsp & _ & _ & Hm & Hpl).
  assert (Hns : all_chars (fun c => negb (is_space c)) (String c r) = true)
    by (apply digits_nonspace; simpl; by rewrite Hc, Hr).
  unfold py_int, strip. destruct (n <? 0) eqn:Hneg.
  - rewrite lstrip_nonspace by done.
    rewrite rstrip_nonspace by exact Hns.
    simpl. rewrite Hp. simpl. f_equal. lia.
  - rewrite lstrip_nonspace by done.
    rewrite rstrip_nonspace by exact Hns.
    rewrite Hm, Hpl, Hp. f_equal. lia.
Qed.

Lemma remove_tt_no_t s :
  all_chars (fun c => negb (Ascii.eqb c "t")) s = true -> remove_tt s = s.
Proof.
  induction s as [|c s IH]; [done|]. simpl.
  intros [Hc Hs]%andb_true_iff. apply negb_true_iff in Hc.
  destruct s as [|c2 r]; [done|]. rewrite Hc. simpl. f_equal. by apply IH.
Qed.


Lemma parse_all_digits s : all_chars is_digit s = true ->
  forall a, exists v, forall k,
    parse_digits s a k true = Some (v, (k + String.length s)%nat).
Proof.
  induction s as [|c s IH]; intros Hs a.
  - exists a. intros k. simpl. f_equal. f_equal. lia.
  - simpl in Hs. apply andb_true_iff in Hs as [Hc Hs].
    destruct (IH Hs (a * 10 + digit_value c)) as [v Hv]. exists v. intros k.
    rewrite parse_digit_step by done. rewrite Hv. simpl. f_equal. f_equal. lia.
Qed.

Lemma digits_no_t s :
  all_chars is_digit s = true -> all_chars (fun c => negb (Ascii.eqb c "t")) s = true.
Proof.
  apply all_chars_impl. intros c Hc. destruct (digit_facts c Hc) as (_ & _ & -> & _). done.
Qed.

Lemma py_str_int_no_t n s :
  py_str_int n = Some s -> all_chars (fun c => negb (Ascii.eqb c "t")) s = true.
Proof.
  unfold py_str_int. destruct (str_nonneg_spec (Z.abs n)) as
      (ds & -> & Hall & _ & _); [lia|].
  destruct (_ <=? _)%nat; [|discriminate]. intros Hs. injection Hs as <-.
  destruct (n <? 0); [simpl|]; by apply digits_no_t.
Qed.

End PyInt.

(** * The OMDb id helpers of [main.py] *)

Module OmdbIds.

(** [/movie/id/{tmdb_id}] asks for [f"tt{tmdb_id}"] and reports
    [imdb_to_int] of it: whenever [str(tmdb_id)] succeeds, the reported id
    is [tmdb_id] itself. *)
Theorem movie_details_route_id_roundtrip n s :
  py_str_int n = Some s -> movie_details_route_id n = Some n.
Proof.
  intros Hs. unfold movie_details_route_id. rewrite Hs. unfold imdb_to_int.
  rewrite !PyInt.append_cons, PyInt.append_nil.
  change (remove_tt (String "t" (String "t" s))) with (remove_tt s).
  rewrite PyInt.remove_tt_no_t by (exact (PyInt.py_str_int_no_t n s Hs)).
  by apply PyInt.py_int_py_str_int.
Qed.

(** [imdb_to_int] reads the digits after ["tt"] as a decimal number, so a
    leading zero is lost: ["tt0" ++ digits] and ["tt" ++ digits] give the
    same int (within the 4300-digit limit of [int]). *)
Theorem imdb_to_int_drops_leading_zero c s :
  is_digit c = true -> PyInt.all_chars is_digit s = true ->
  (String.length s < 4299)%nat ->
  imdb_to_int (String "t" (String "t" (String "0" (String c s))))
  = imdb_to_int (String "t" (String "t" (String c s))).
Proof.
  intros Hc Hs Hlen. unfold imdb_to_int.
  change (remove_tt (String "t" (String "t" (String "0" (String c s)))))
    with (remove_tt (String "0" (String c s))).
  change (remove_tt (String "t" (String "t" (String c s))))
    with (remove_tt (String c s)).
  assert (Hcs : PyInt.all_chars is_digit (String c s) = true)
    by (simpl; by rewrite Hc, Hs).
  rewrite !PyInt.remove_tt_no_t
    by (apply PyInt.digits_no_t; simpl; try rewrite Hc; by rewrite ?Hs).
  destruct (PyInt.digit_facts c Hc) as (Hsp & _ & _ & Hm & Hpl).
  unfold py_int, strip.
  rewrite !PyInt.lstrip_nonspace by done.
  rewrite !PyInt.rstrip_nonspace
    by (apply PyInt.digits_nonspace; simpl; try rewrite Hc; by rewrite ?Hs).
  rewrite Hm, Hpl. unfold parse_unsigned.
  rewrite !PyInt.parse_digit_step by done.
  destruct (PyInt.parse_all_digits s Hs (0 * 10 + digit_value c)) as [v Hv].
  change (digit_value "0") with 0.
  replace ((0 * 10 + 0) * 10 + digit_value c) with (0 * 10 + digit_value c) by lia.
  rewrite !Hv. unfold max_str_digits.
  destruct (Nat.leb_spec (2 + String.length s) 4300); [|lia].
  destruct (Nat.leb_spec (1 + String.length s) 4300); [|lia].
  done.
Qed.

End OmdbIds.

Module Genres.

Lemma split_comma_cons2 c d r :
  split_comma (String c (String d r))
  = if Ascii.eqb c "," && Ascii.eqb d " " then EmptyString :: split_comma r
    else cons_head c (split_comma (String d r)).
Proof. reflexivity. Qed.

Lemma split_comma_no_sep x :
  str_contains ", " x = false -> split_comma x = [x].
Proof.
  induction x as [|c x IH]; [done|]. intros Hx.
  destruct x as [|d x']; [done|].
  assert (Hc : (Ascii.eqb c "," && Ascii.eqb d " ") = false).
  { simpl in Hx. apply orb_false_iff in Hx as [Hx _].
    destruct (Ascii.eqb_spec c ","), (Ascii.eqb_spec d " "); subst; simpl in *; done. }
  assert (Ht : str_contains ", " (String d x') = false).
  { simpl in Hx. apply orb_false_iff in Hx as [_ Hx]. exact Hx. }
  rewrite split_comma_cons2, Hc, (IH Ht). done.
Qed.

Lemma split_comma_sep x r :
  str_contains ", " x = false ->
  split_comma (String.append x (String "," (String " " r))) = x :: split_comma r.
Proof.
  induction x as [|c x IH]; intros Hx; [done|].
  rewrite PyInt.append_cons.
  destruct x as [|d x'].
  - rewrite PyInt.append_nil, split_comma_cons2.
    destruct (Ascii.eqb c ","); simpl; done.
  - assert (Hc : (Ascii.eqb c "," && Ascii.eqb d " ") = false).
    { simpl in Hx. apply orb_false_iff in Hx as [Hx _].
      destruct (Ascii.eqb_spec c ","), (Ascii.eqb_spec d " "); subst; simpl in *; done. }
    assert (Ht : str_contains ", " (String d x') = false).
    { simpl in Hx. apply orb_false_iff in Hx as [_ Hx]. exact Hx. }
    rewrite PyInt.append_cons, split_comma_cons2, Hc.
    rewrite <- PyInt.append_cons, (IH Ht). done.
Qed.

Lemma split_join names :
  names <> [] -> Forall (fun n => str_contains ", " n = false) names ->
  split_comma (join_comma names) = names.
Proof.
  induction names as [|x names IH]; intros Hne Hall; [done|].
  inversion Hall as [|? ? Hx Hrest]; subst.
  destruct names as [|y names].
  - simpl. by apply split_comma_no_sep.
  - change (join_comma (x :: y :: names))
      with (String.append x (String "," (String " " (join_comma (y :: names))))).
    rewrite split_comma_sep by done. rewrite IH; done.
Qed.

Lemma filter_all {A} (f : A -> bool) l :
  Forall (fun x => f x = true) l -> List.filter f l = l.
Proof. induction 1 as [|x l Hx _ IH]; simpl; [done|]. by rewrite Hx, IH. Qed.

Lemma join_head c x names :
  exists r, join_comma (String c x :: names) = String c r.
Proof.
  destruct names as [|y names]; [by eexists|].
  change (join_comma (String c x :: y :: names))
    with (String.append (String c x) (String "," (String " " (join_comma (y :: names))))).
  rewrite PyInt.append_cons. by eexists.
Qed.

(** [omdb_movie_details] decodes a [", "]-joined ["Genre"] field back into
    its names: for nonempty names none of which contains [", "], the genres
    are [{"name": g}] for exactly those names, in order (none for an empty
    list, whose join is [""]). *)
Theorem omdb_genres_join names d :
  Forall (fun n => n <> EmptyString /\ str_contains ", " n = false) names ->
  dget "Genre" d = Some (PStr (join_comma names)) ->
  omdb_genres (PDict d) = POk (map (fun n => PDict [("name", PStr n)]) names).
Proof.
  intros Hall Hg. unfold omdb_genres, py_get. simpl. rewrite Hg.
  destruct names as [|x names]; [done|].
  inversion Hall as [|? ? [Hx _] _]; subst.
  destruct x as [|c x]; [done|].
  destruct (join_head c x names) as [r Hr].
  unfold py_or. rewrite Hr. simpl truthy. cbn iota beta. rewrite <- Hr.
  rewrite split_join by (done || (eapply Forall_impl; [exact Hall|]; intros ? []; done)).
  rewrite filter_all; [done|].
  eapply Forall_impl; [exact Hall|]. intros n [Hn _].
  destruct n; done.
Qed.

End Genres.

Module Routing.

(** The id the routing block reads from the query parameters, if any. *)
Definition qp_id (qp : gmap string string) : option Z :=
  match qp !! "id" with
  | Some i => if String.eqb i "" then None else py_int i
  | None => None
  end.

Definition view_after (ss : gmap string pyval) (qp : gmap string string) : pyval :=
  match qp_id qp with
  | Some _ => PStr "details"
  | None =>
      match qp !! "view" with
      | Some v => if String.eqb v "home" || String.eqb v "details" then PStr v
                  else default (PStr "home") (ss !! "view")
      | None => default (PStr "home") (ss !! "view")
      end
  end.

Definition selected_after (ss : gmap string pyval) (qp : gmap string string) : pyval :=
  match qp_id qp with
  | Some n => PInt n
  | None => default PNone (ss !! "selected_tmdb_id")
  end.

Ltac lookups :=
  repeat first [ rewrite lookup_insert_eq | rewrite lookup_insert_ne by done
               | rewrite lookup_delete_eq | rewrite lookup_delete_ne by done ].

Lemma route_view ss qp : route ss qp !! "view" = Some (view_after ss qp).
Proof.
  unfold route, view_after, qp_id.
  repeat case_match; simplify_map_eq; done.
Qed.

Lemma route_selected ss qp :
  route ss qp !! "selected_tmdb_id" = Some (selected_after ss qp).
Proof.
  unfold route, selected_after, qp_id.
  repeat case_match; simplify_map_eq; done.
Qed.

Lemma route_other ss qp k :
  k <> "view" -> k <> "selected_tmdb_id" -> route ss qp !! k = ss !! k.
Proof.
  intros Hv Hs. unfold route.
  repeat case_match; simplify_eq; lookups; rewrite ?lookup_insert_ne by congruence;
    rewrite ?lookup_insert_ne by congruence; done.
Qed.


Lemma py_str_int_nonempty n s : py_str_int n = Some s -> String.eqb s "" = false.
Proof.
  unfold py_str_int. destruct (PyInt.str_nonneg_spec (Z.abs n)) as
      (ds & -> & _ & Hlen & _); [lia|].
  destruct (_ <=? _)%nat; [|discriminate]. intros Hs. injection Hs as <-.
  destruct (n <? 0); [done|]. destruct ds; [simpl in Hlen; lia|done].
Qed.

(** Streamlit reruns [app.py] on every interaction, and the routing block
    runs each time: running it again with the same query parameters
    changes nothing. *)
Theorem route_idempotent ss qp : route (route ss qp) qp = route ss qp.
Proof.
  apply map_eq_iff. intros k.
  destruct (decide (k = "view")) as [->|Hv].
  { rewrite !route_view. f_equal. unfold view_after at 1. rewrite route_view.
    unfold view_after. repeat case_match; done. }
  destruct (decide (k = "selected_tmdb_id")) as [->|Hs].
  { rewrite !route_selected. f_equal. unfold selected_after at 1.
    rewrite route_selected. unfold selected_after. repeat case_match; done. }
  by rewrite !route_other.
Qed.

(** The bare [except: pass] around [int(qp_id)]: an ["id"] query
    parameter that is not an int is ignored, as if it were absent. *)
Theorem route_ignores_bad_id ss qp i :
  qp !! "id" = Some i -> py_int i = None ->
  route ss qp = route ss (delete "id" qp).
Proof.
  intros Hi Hn. unfold route.
  rewrite lookup_delete_eq. rewrite lookup_delete_ne by done. rewrite Hi.
  destruct (String.eqb i ""); [done|]. by rewrite Hn.
Qed.

(** [goto_details(tmdb_id)] stores [int(tmdb_id)] in the session and
    [str(int(tmdb_id))] in the query parameters, then reruns; the routing of
    the rerun reads the id back and leaves the state as [goto_details] set
    it: the details view of that id. *)
Theorem goto_details_rerun v ss qp n s :
  py_int_of v = POk n -> py_str_int n = Some s ->
  exists ss' qp', goto_details v ss qp = (ss', qp', None) /\
    ss' !! "view" = Some (PStr "details") /\
    ss' !! "selected_tmdb_id" = Some (PInt n) /\
    route ss' qp' = ss'.
Proof.
  intros Hv Hs. unfold goto_details. rewrite Hv, Hs.
  eexists _, _. split; [reflexivity|]. split; [by simplify_map_eq|].
  split; [by simplify_map_eq|].
  apply map_eq_iff. intros k.
  destruct (decide (k = "view")) as [->|Hk].
  { rewrite route_view. unfold view_after, qp_id. simplify_map_eq.
    rewrite (py_str_int_nonempty n s Hs), (PyInt.py_int_py_str_int n s Hs). done. }
  destruct (decide (k = "selected_tmdb_id")) as [->|Hk'].
  { rewrite route_selected. unfold selected_after, qp_id. simplify_map_eq.
    rewrite (py_str_int_nonempty n s Hs), (PyInt.py_int_py_str_int n s Hs). done. }
  by rewrite route_other.
Qed.

(** [goto_home()] and the routing of the rerun: the view is ["home"], the
    previously selected id stays in the session ([None] if there was none),
    and nothing else in the session changes. *)
Theorem goto_home_rerun ss qp :
  let '(ss', qp') := goto_home ss qp in
  route ss' qp' !! "view" = Some (PStr "home") /\
  route ss' qp' !! "selected_tmdb_id" = Some (default PNone (ss !! "selected_tmdb_id")) /\
  forall k, k <> "view" -> k <> "selected_tmdb_id" -> route ss' qp' !! k = ss !! k.
Proof.
  unfold goto_home. split; [|split].
  - rewrite route_view. unfold view_after, qp_id. by simplify_map_eq.
  - rewrite route_selected. unfold selected_after, qp_id. by simplify_map_eq.
  - intros k Hv Hs. rewrite route_other by done. by simplify_map_eq.
Qed.

End Routing.

Module PyAux.

Lemma mapM_Forall2 {A B} (f : A -> pyres B) l l' :
  mapM f l = POk l' -> Forall2 (fun x y => f x = POk y) l l'.
Proof.
  revert l'. induction l as [|x l IH]; simpl; intros l' H.
  - injection H as <-. constructor.
  - destruct (f x) as [y|] eqn:Hf; [|discriminate]. simpl in H.
    destruct (mapM f l) as [ys|] eqn:Hm; [|discriminate]. simpl in H.
    injection H as <-. constructor; [done|]. by apply IH.
Qed.

Lemma mapM_length {A B} (f : A -> pyres B) l l' :
  mapM f l = POk l' -> length l' = length l.
Proof. intros H. symmetry. by eapply Forall2_length, mapM_Forall2. Qed.

Lemma mapM_ok {A B} (f : A -> pyres B) l :
  Forall (fun x => exists y, f x = POk y) l -> exists l', mapM f l = POk l'.
Proof.
  induction 1 as [|x l [y Hy] _ [l' IH]]; [by exists []|].
  exists (y :: l'). simpl. by rewrite Hy, IH.
Qed.

Lemma filterM_spec {A} (f : A -> pyres bool) l l' :
  filterM f l = POk l' ->
  (forall P, Forall P l -> Forall P l') /\ Forall (fun x => f x = POk true) l' /\
  (l' = [] -> Forall (fun x => f x = POk false) l).
Proof.
  revert l'. induction l as [|x l IH]; simpl; intros l' H.
  - injection H as <-. done.
  - destruct (f x) as [b|] eqn:Hf; [|discriminate]. simpl in H.
    destruct (filterM f l) as [ys|] eqn:Hm; [|discriminate]. simpl in H.
    injection H as <-. destruct (IH ys eq_refl) as (H1 & H2 & H3).
    destruct b.
    + split; [|split].
      * intros P HP. inversion HP; subst. constructor; [done|]. by apply H1.
      * by constructor.
      * done.
    + split; [|split].
      * intros P HP. inversion HP; subst. by apply H1.
      * done.
      * intros ->. constructor; [done|]. by apply H3.
Qed.

Lemma filterM_ok {A} (f : A -> pyres bool) l :
  Forall (fun x => exists b, f x = POk b) l -> exists l', filterM f l = POk l'.
Proof.
  induction 1 as [|x l [b Hb] _ [l' IH]]; [by exists []|].
  simpl. rewrite Hb, IH. by eexists.
Qed.

Lemma concat_mapM_Forall {A B} (f : A -> pyres (list B)) (P : B -> Prop) l l' :
  (forall x ys, In x l -> f x = POk ys -> Forall P ys) ->
  concat_mapM f l = POk l' -> Forall P l'.
Proof.
  revert l'. induction l as [|x l IH]; simpl; intros l' Hf H.
  - injection H as <-. constructor.
  - destruct (f x) as [ys|] eqn:Hx; [|discriminate]. simpl in H.
    destruct (concat_mapM f l) as [zs|] eqn:Hm; [|discriminate]. simpl in H.
    injection H as <-. apply Forall_app. split; [by eapply Hf; [left|]|].
    apply IH; [|done]. intros; eapply Hf; [right|]; done.
Qed.

Lemma concat_mapM_ok {A B} (f : A -> pyres (list B)) l :
  Forall (fun x => exists ys, f x = POk ys) l -> exists l', concat_mapM f l = POk l'.
Proof.
  induction 1 as [|x l [ys Hy] _ [l' IH]]; [by exists []|].
  simpl. rewrite Hy, IH. by eexists.
Qed.

Lemma Forall_py_take {A} (P : A -> Prop) k l : Forall P l -> Forall P (py_take k l).
Proof. intros H. unfold py_take. destruct (0 <=? k); by apply Forall_take. Qed.

Lemma length_py_take {A} k (l : list A) :
  length (py_take k l) =
  (if 0 <=? k then Nat.min (Z.to_nat k) (length l)
   else Nat.min (Z.to_nat (Z.of_nat (length l) + k)) (length l)).
Proof. unfold py_take. destruct (0 <=? k); apply length_take. Qed.

Lemma truthy_py_or a b : truthy b = true -> truthy (py_or a b) = true.
Proof. unfold py_or. destruct (truthy a) eqn:Ha; done. Qed.

Lemma py_get_getitem d k v :
  py_get (PDict d) k PNone = POk v -> truthy v = true -> py_getitem (PDict d) k = POk v.
Proof.
  simpl. destruct (dget k d); intros [= <-]; [done|]. discriminate.
Qed.

Lemma py_get_getitem' m k v :
  py_get m k PNone = POk v -> truthy v = true -> py_getitem m k = POk v.
Proof.
  destruct m; try discriminate. simpl. destruct (dget k d); intros [= <-]; [done|].
  discriminate.
Qed.

Lemma py_get_dict d k def :
  py_get (PDict d) k def = POk (match dget k d with Some v => v | None => def end).
Proof. reflexivity. Qed.

Ltac pstep H :=
  lazymatch type of H with
  | pbind ?m _ = _ =>
      let E := fresh "E" in
      destruct m eqn:E; cbn [pbind] in H; [|discriminate H]
  end.

End PyAux.

Import PyAux.

(** * [/home] *)

Module Home.

(** [data.get("Search", [])[:limit]] in [home]: when it returns, [home]
    gives one card per OMDb result kept by the slice, so at most [limit]
    cards for [limit >= 0]; a negative [limit] drops that many results
    from the end instead of failing. *)
Theorem home_cards_count card mk d l limit cs :
  dget "Search" d = Some (PList l) ->
  home_cards card mk (PDict d) limit = POk cs ->
  (0 <= limit -> length cs = Nat.min (Z.to_nat limit) (length l)) /\
  (limit < 0 -> length cs = (length l - Z.to_nat (- limit))%nat).
Proof.
  intros Hs H. unfold home_cards, py_get in H. rewrite Hs in H. simpl in H.
  apply PyAux.mapM_length in H. rewrite H, PyAux.length_py_take.
  split; intros Hl.
  - destruct (Z.leb_spec 0 limit); [done|lia].
  - destruct (Z.leb_spec 0 limit); [lia|]. lia.
Qed.

End Home.

(** * [to_cards_from_tfidf_items] *)

Module TfidfCards.

Lemma loop_spec xs cs :
  tfidf_cards_loop xs = POk cs ->
  (length cs <= length xs)%nat /\
  Forall (fun c => exists id t p, c = card_of id t p /\
                     truthy id = true /\ truthy t = true) cs.
Proof.
  revert cs. induction xs as [|x xs IH]; intros cs H; cbn [tfidf_cards_loop] in H.
  - injection H as <-. split; [simpl; lia|constructor].
  - pstep H. pstep H. destruct (truthy a0) eqn:Htr.
    + pstep H. pstep H. pstep H. pstep H. pstep H. injection H as <-.
      rewrite (PyAux.py_get_getitem' _ _ _ E0 Htr) in E1. injection E1 as <-.
      destruct (IH _ eq_refl) as [Hl Hf].
      split; [simpl; lia|]. constructor; [|done].
      eexists _, _, _. split; [done|]. split; [done|].
      destruct (truthy a2) eqn:Ht1.
      * by injection E3 as <-.
      * revert E3. cbn [pbind]. destruct (py_get x "title" PNone); [|discriminate].
        cbn [pbind]. intros [= <-]. by apply PyAux.truthy_py_or.
    + destruct (IH cs H) as [Hl Hf]. split; [simpl; lia|done].
Qed.

(** [to_cards_from_tfidf_items] keeps only the items whose [tmdb] card has
    a truthy id: when it returns, every card is
    [{"tmdb_id", "title", "poster_url"}] with a truthy [tmdb_id] and a
    truthy title (["Untitled"] when neither title is set), and there are
    at most as many cards as items. *)
Theorem to_cards_shape l cs :
  to_cards_from_tfidf_items (PList l) = POk cs ->
  (length cs <= length l)%nat /\
  Forall (fun c => exists id t p, c = card_of id t p /\
                     truthy id = true /\ truthy t = true) cs.
Proof.
  unfold to_cards_from_tfidf_items. intros H.
  assert (Hx : py_iter (py_or (PList l) (PList [])) = POk l).
  { unfold py_or. destruct l; done. }
  rewrite Hx in H. by apply loop_spec.
Qed.

(** The items of [/movie/search]'s [tfidf_recommendations] are objects
    whose ["tmdb"] is [null] or a card: on any list of objects whose
    ["tmdb"] entry is missing, falsy or an object,
    [to_cards_from_tfidf_items] raises no exception. *)
Theorem to_cards_no_exception l :
  Forall (fun x => exists d, x = PDict d /\
            match dget "tmdb" d with
            | Some t => truthy t = false \/ exists d', t = PDict d'
            | None => True
            end) l ->
  exists cs, to_cards_from_tfidf_items (PList l) = POk cs.
Proof.
  intros Hall. unfold to_cards_from_tfidf_items.
  assert (Hx : py_iter (py_or (PList l) (PList [])) = POk l).
  { unfold py_or. destruct l; done. }
  rewrite Hx. cbn [pbind]. clear Hx.
  induction Hall as [|x l [d [-> Hd]] _ [cs IH]]; [by exists []|].
  cbn [tfidf_cards_loop]. rewrite py_get_dict. cbn [pbind].
  set (t := match dget "tmdb" d with Some v => v | None => PNone end).
  assert (Ht : exists d', py_or t (PDict []) = PDict d').
  { subst t. unfold py_or. destruct (dget "tmdb" d) as [v|].
    - destruct Hd as [Hf | [d' ->]]; [rewrite Hf; by eexists|].
      destruct (truthy (PDict d')); by eexists.
    - by eexists. }
  destruct Ht as [d' Hd']. rewrite Hd', py_get_dict. cbn [pbind].
  destruct (truthy _) eqn:Htr; [|by exists cs].
  rewrite (py_get_getitem' _ _ _ (py_get_dict _ _ _) Htr). cbn [pbind].
  rewrite !py_get_dict. cbn [pbind].
  destruct (truthy (match dget "title" d' with Some v => v | None => PNone end));
    cbn [pbind]; rewrite ?py_get_dict; cbn [pbind]; rewrite IH; cbn [pbind]; by eexists.
Qed.

End TfidfCards.

Module Parse.

Section WithRepr.
Variable py_repr : pyval -> string.

Lemma parse_inv data keyword limit sugg cards :
  parse_tmdb_search_to_cards py_repr data keyword limit = POk (sugg, cards) ->
  (sugg = [] /\ cards = []) \/
  exists raw matched,
    parse_raw_items data = POk (Some raw) /\
    filterM (title_has (lower (strip keyword))) raw = POk matched /\
    mapM (suggestion py_repr)
      (py_take 10 (match matched with [] => raw | _ => matched end)) = POk sugg /\
    mapM search_card
      (py_take limit (match matched with [] => raw | _ => matched end)) = POk cards.
Proof.
  unfold parse_tmdb_search_to_cards. intros H. pstep H.
  destruct a as [raw|]; [|injection H as <- <-; by left].
  right. pstep H. pstep H. pstep H. injection H as <- <-.
  exists raw, a. done.
Qed.

(** [parse_tmdb_search_to_cards] returns at most 10 suggestions and, for
    [limit >= 0], at most [limit] cards. *)
Theorem parse_bounds data keyword limit sugg cards :
  parse_tmdb_search_to_cards py_repr data keyword limit = POk (sugg, cards) ->
  (length sugg <= 10)%nat /\ (0 <= limit -> (length cards <= Z.to_nat limit)%nat).
Proof.
  intros H. apply parse_inv in H as [[-> ->]|(raw & matched & _ & _ & Hs & Hc)].
  - split; [simpl; lia|]. intros _. simpl. lia.
  - apply mapM_length in Hs, Hc. rewrite Hs, Hc, !length_py_take. split.
    + replace (0 <=? 10) with true by reflexivity. change (Z.to_nat 10) with 10%nat. lia.
    + intros Hl. destruct (Z.leb_spec 0 limit); lia.
Qed.

(** A reply that is neither a list nor an object with a ["Search"] or a
    ["results"] key (an OMDb error reply, [null], a string, a number)
    gives no suggestion and no card, without an exception. *)
Theorem parse_other_reply data keyword limit :
  (forall l, data <> PList l) ->
  py_has_key data "Search" = false -> py_has_key data "results" = false ->
  parse_tmdb_search_to_cards py_repr data keyword limit = POk ([], []).
Proof.
  intros Hl Hs Hr. unfold parse_tmdb_search_to_cards.
  destruct data as [| | | | |l|d]; try reflexivity.
  - by destruct (Hl l).
  - unfold parse_raw_items. rewrite Hs, Hr. reflexivity.
Qed.

Lemma search_card_title kwl x c :
  search_card x = POk c -> title_has kwl c = title_has kwl x.
Proof.
  unfold search_card. intros H. pstep H. pstep H. pstep H. injection H as <-.
  unfold title_has. rewrite E0. reflexivity.
Qed.

Lemma search_card_id x c :
  search_card x = POk c -> py_getitem c "tmdb_id" = py_getitem x "tmdb_id".
Proof.
  unfold search_card. intros H. pstep H. pstep H. pstep H. injection H as <-.
  reflexivity.
Qed.

Lemma suggestion_id x s :
  suggestion py_repr x = POk s -> py_getitem x "tmdb_id" = POk s.2.
Proof.
  unfold suggestion. intros H. pstep H. pstep H. pstep H. pstep H.
  injection H as <-. reflexivity.
Qed.

Lemma Forall2_map_same {A B C D} (R1 : A -> B -> Prop) (R2 : A -> C -> Prop)
    (f : B -> D) (g : C -> D) l a b :
  Forall2 R1 l a -> Forall2 R2 l b ->
  (forall x y z, R1 x y -> R2 x z -> f y = g z) -> map f a = map g b.
Proof.
  intros H1. revert b. induction H1 as [|x y l a Hxy _ IH]; intros b H2 Hfg.
  - inversion H2. done.
  - inversion H2 as [|? z ? b' Hxz Hb]; subst. simpl. f_equal; [by eapply Hfg|].
    by apply IH.
Qed.

(** The keyword filter keeps the matching results when there is one, and
    all results otherwise: either every card's title contains the
    stripped, lower-cased keyword, or no card's title does. *)
Theorem parse_cards_all_or_none data keyword limit sugg cards :
  parse_tmdb_search_to_cards py_repr data keyword limit = POk (sugg, cards) ->
  Forall (fun c => title_has (lower (strip keyword)) c = POk true) cards \/
  Forall (fun c => title_has (lower (strip keyword)) c = POk false) cards.
Proof.
  intros H. apply parse_inv in H as [[-> ->]|(raw & matched & _ & Hm & _ & Hc)].
  { left. constructor. }
  apply filterM_spec in Hm as (_ & Htrue & Hnil).
  apply mapM_Forall2 in Hc.
  assert (Hfin : forall b,
    Forall (fun x => title_has (lower (strip keyword)) x = POk b)
      (match matched with [] => raw | _ => matched end) ->
    Forall (fun c => title_has (lower (strip keyword)) c = POk b) cards).
  { intros b Hb. apply (Forall_py_take _ limit) in Hb.
    induction Hc as [|x c l cs Hxc _ IHc]; [constructor|].
    inversion Hb; subst. constructor; [|by apply IHc].
    by rewrite (search_card_title _ _ _ Hxc). }
  destruct matched as [|y ys].
  - right. apply Hfin. by apply Hnil.
  - left. by apply Hfin.
Qed.

(** With [limit >= 10] (the client uses 24), the suggestions are the
    first cards: their ids are the ids of the first [len(suggestions)]
    cards, in the same order. *)
Theorem parse_suggestions_prefix data keyword limit sugg cards :
  10 <= limit ->
  parse_tmdb_search_to_cards py_repr data keyword limit = POk (sugg, cards) ->
  map (fun s => POk s.2) sugg = map (fun c => py_getitem c "tmdb_id") (firstn 10 cards).
Proof.
  intros Hl H. apply parse_inv in H as [[-> ->]|(raw & matched & _ & _ & Hs & Hc)];
    [done|].
  apply mapM_Forall2 in Hs, Hc.
  set (fin := match matched with [] => raw | _ => matched end) in *.
  assert (Hc' : Forall2 (fun x y => search_card x = POk y)
                  (firstn 10 (py_take limit fin)) (firstn 10 cards)).
  { by apply Forall2_take. }
  assert (Ht : firstn 10 (py_take limit fin) = py_take 10 fin).
  { unfold py_take. replace (0 <=? 10) with true by reflexivity.
    destruct (Z.leb_spec 0 limit); [|lia].
    rewrite take_take. f_equal. change (Z.to_nat 10) with 10%nat. lia. }
  rewrite Ht in Hc'.
  eapply Forall2_map_same; [exact Hs|exact Hc'|]. simpl.
  intros x s c Hx Hxc. rewrite (search_card_id _ _ Hxc). symmetry.
  by apply suggestion_id.
Qed.

Lemma Forall2_transfer {A B} (R : A -> B -> Prop) (P : A -> Prop) (Q : B -> Prop) l l' :
  Forall2 R l l' -> Forall P l -> (forall x y, R x y -> P x -> Q y) -> Forall Q l'.
Proof.
  induction 1 as [|x y l l' Hxy _ IH]; intros HP HPQ; [constructor|].
  inversion HP; subst. constructor; [by eapply HPQ|]. by apply IH.
Qed.

Lemma py_strip_str v w : py_strip v = POk w -> exists s, w = PStr (strip s).
Proof. destruct v; try discriminate. intros [= <-]. by eexists. Qed.

Lemma omdb_item_ok m ys :
  omdb_item m = POk ys ->
  Forall (fun x => exists n t p y, x = raw_item (PInt n) (PStr t) p y /\
            n <> 0 /\ t <> EmptyString /\ strip t = t /\ p <> PStr "N/A") ys.
Proof.
  unfold omdb_item. intros H. pstep H. pstep H. pstep H. pstep H. pstep H.
  destruct (py_strip_str _ _ E0) as [s ->].
  set (tid := if truthy a1 then _ else PNone) in H.
  assert (Htid : tid = PNone \/ exists n, tid = PInt n).
  { subst tid. destruct (truthy a1); [|by left].
    destruct (py_imdb_to_int a1); [right; by eexists|by left]. }
  destruct (truthy (PStr (strip s)) && truthy tid) eqn:Hb;
    injection H as <-; [|constructor].
  apply andb_true_iff in Hb as [Hs Hn].
  destruct Htid as [Htid|[n Htid]]; rewrite Htid in Hn |- *; [discriminate|].
  constructor; [|constructor].
  eexists n, (strip s), _, a3. split; [reflexivity|]. split; [|split; [|split]].
  - simpl in Hn. by apply Z.eqb_neq, negb_true_iff.
  - simpl in Hs. intros He. rewrite He in Hs. discriminate.
  - apply Norm.strip_idem.
  - destruct (py_eq_str a2 "N/A") eqn:Hp; [discriminate|].
    intros ->. discriminate.
Qed.

(** For an OMDb reply (an object with a ["Search"] key), every card has a
    nonzero int id read from its ["imdbID"], a nonempty title without
    surrounding whitespace, and a poster that is never the string ["N/A"]
    (OMDb's "no poster" becomes [None]). *)
Theorem parse_omdb_cards data keyword limit sugg cards :
  py_has_key data "Search" = true ->
  parse_tmdb_search_to_cards py_repr data keyword limit = POk (sugg, cards) ->
  Forall (fun c => exists n t p, c = card_of (PInt n) (PStr t) p /\
            n <> 0 /\ t <> EmptyString /\ strip t = t /\ p <> PStr "N/A") cards.
Proof.
  intros Hk H. apply parse_inv in H as [[_ ->]|(raw & matched & Hr & Hm & _ & Hc)];
    [constructor|].
  assert (Hraw : Forall (fun x => exists n t p y, x = raw_item (PInt n) (PStr t) p y /\
            n <> 0 /\ t <> EmptyString /\ strip t = t /\ p <> PStr "N/A") raw).
  { destruct data as [| | | | | |d]; try discriminate.
    unfold parse_raw_items in Hr. rewrite Hk in Hr.
    pstep Hr. pstep Hr. pstep Hr. injection Hr as <-.
    eapply concat_mapM_Forall; [|exact E1]. intros x ys _. apply omdb_item_ok. }
  apply filterM_spec in Hm as (Hsub & _ & _).
  apply mapM_Forall2 in Hc.
  eapply Forall2_transfer; [exact Hc| |].
  { apply Forall_py_take. destruct matched; [exact Hraw|]. by apply Hsub. }
  intros x c Hxc (n & t & p & y & -> & Hn & Ht & Hst & Hp).
  injection Hxc as <-. by exists n, t, p.
Qed.

(** ["Title"] and ["Year"] fields that are strings, [null] or missing. *)
Definition str_or_none (o : option pyval) : Prop :=
  match o with
  | None | Some PNone | Some (PStr _) => True
  | _ => False
  end.

Lemma omdb_item_total m :
  (exists dm, m = PDict dm /\ str_or_none (dget "Title" dm) /\
              str_or_none (dget "Year" dm)) ->
  exists ys, omdb_item m = POk ys /\
    Forall (fun x => exists id t p y, x = raw_item id (PStr t) p y /\
              (y = PNone \/ exists s, y = PStr s)) ys.
Proof.
  intros (dm & -> & Ht & Hy). unfold omdb_item. rewrite !py_get_dict. cbn [pbind].
  assert (Hs : exists s, py_strip (py_or (match dget "Title" dm with
                 Some v => v | None => PNone end) (PStr "")) = POk (PStr s)).
  { destruct (dget "Title" dm) as [[| | | | s| |]|]; try done; unfold py_or;
      try (by eexists).
    destruct (truthy (PStr s)); by eexists. }
  destruct Hs as [s Hs]. rewrite Hs. cbn [pbind].
  destruct (_ && _); eexists; (split; [reflexivity|]); [|constructor].
  constructor; [|constructor]. eexists _, s, _, _. split; [reflexivity|].
  destruct (dget "Year" dm) as [[| | | | y| |]|]; try done; [by left|by right; eexists|].
  right. by eexists.
Qed.

(** A well-formed OMDb reply never makes [parse_tmdb_search_to_cards]
    raise: when every ["Search"] element is an object whose ["Title"] and
    ["Year"] are strings, [null] or missing, it returns, whatever the
    ["imdbID"] and ["Poster"] fields hold (a bad ["imdbID"] only drops the
    result). *)
Theorem parse_omdb_no_exception d ms keyword limit :
  dget "Search" d = Some (PList ms) ->
  Forall (fun m => exists dm, m = PDict dm /\ str_or_none (dget "Title" dm) /\
                     str_or_none (dget "Year" dm)) ms ->
  exists r, parse_tmdb_search_to_cards py_repr (PDict d) keyword limit = POk r.
Proof.
  intros Hd Hms.
  set (Q := fun x => exists id t p y, x = raw_item id (PStr t) p y /\
              (y = PNone \/ exists s, y = PStr s)).
  assert (Hraw : exists raw, concat_mapM omdb_item ms = POk raw /\ Forall Q raw).
  { destruct (concat_mapM_ok omdb_item ms) as [raw Hraw].
    { eapply Forall_impl; [exact Hms|]. intros m Hm.
      destruct (omdb_item_total m Hm) as (ys & Hys & _). by exists ys. }
    exists raw. split; [done|]. eapply concat_mapM_Forall; [|exact Hraw].
    intros x ys Hx Hxy. rewrite List.Forall_forall in Hms.
    destruct (omdb_item_total x (Hms x Hx)) as (ys' & Hys' & HQ).
    rewrite Hxy in Hys'. by injection Hys' as ->. }
  destruct Hraw as (raw & Hraw & HQ).
  unfold parse_tmdb_search_to_cards, parse_raw_items, py_has_key.
  rewrite Hd. cbn [pbind]. rewrite py_get_dict, Hd. cbn [py_iter pbind].
  rewrite Hraw. cbn [pbind].
  destruct (filterM_ok (title_has (lower (strip keyword))) raw) as [matched Hm].
  { eapply Forall_impl; [exact HQ|]. intros x (id & t & p & y & -> & _).
    by eexists. }
  rewrite Hm. cbn [pbind].
  assert (HQf : Forall Q (match matched with [] => raw | _ => matched end)).
  { apply filterM_spec in Hm as (Hsub & _). destruct matched; [done|].
    by apply Hsub. }
  destruct (mapM_ok (suggestion py_repr)
              (py_take 10 (match matched with [] => raw | _ => matched end)))
    as [sugg Hsg].
  { eapply Forall_impl; [by apply Forall_py_take|].
    intros x (id & t & p & y & -> & Hy).
    destruct Hy as [->|[s ->]]; unfold suggestion, raw_item; simpl; [by eexists|].
    unfold py_or. destruct (truthy (PStr s)); cbn [py_slice_to pbind];
      destruct (truthy _); cbn [pbind py_format]; by eexists. }
  rewrite Hsg. cbn [pbind].
  destruct (mapM_ok search_card
              (py_take limit (match matched with [] => raw | _ => matched end)))
    as [cards Hcd].
  { eapply Forall_impl; [by apply Forall_py_take|].
    intros x (id & t & p & y & -> & _). by eexists. }
  rewrite Hcd. by eexists.
Qed.

End WithRepr.

End Parse.

Module Grid.

(** The keys of the buttons and the number of [st.columns] rows among the
    events of a run. *)
Fixpoint keys_of (evs : list st_event) : list string :=
  match evs with
  | [] => []
  | EButton _ k :: evs' => k :: keys_of evs'
  | _ :: evs' => keys_of evs'
  end.

Fixpoint columns_count (evs : list st_event) : nat :=
  match evs with
  | [] => O
  | EColumns _ :: evs' => S (columns_count evs')
  | _ :: evs' => columns_count evs'
  end.

Lemma keys_of_app a b : keys_of (a ++ b) = keys_of a ++ keys_of b.
Proof. induction a as [|[] a IH]; simpl; rewrite ?IH; done. Qed.

Lemma columns_count_app a b :
  columns_count (a ++ b) = (columns_count a + columns_count b)%nat.
Proof. induction a as [|[] a IH]; simpl; rewrite ?IH; done. Qed.

Lemma py_str_int_no_us n s :
  py_str_int n = Some s -> PyInt.all_chars (fun c => negb (Ascii.eqb c "_")) s = true.
Proof.
  unfold py_str_int. destruct (PyInt.str_nonneg_spec (Z.abs n)) as
      (ds & -> & Hall & _ & _); [lia|].
  destruct (_ <=? _)%nat; [|discriminate]. intros Hs. injection Hs as <-.
  assert (Hd : PyInt.all_chars (fun c => negb (Ascii.eqb c "_")) ds = true).
  { revert Hall. apply PyInt.all_chars_impl. intros c Hc.
    destruct (PyInt.digit_facts c Hc) as (_ & -> & _). done. }
  destruct (n <? 0); [|done]. simpl. exact Hd.
Qed.

Lemma append_inv_l p a b : String.append p a = String.append p b -> a = b.
Proof.
  induction p as [|c p IH]; rewrite ?PyInt.append_cons, ?PyInt.append_nil; [done|].
  intros H. injection H. apply IH.
Qed.

Lemma append_us x : String.append "_" x = String "_" x.
Proof. by rewrite PyInt.append_cons, PyInt.append_nil. Qed.

Lemma split_us a a' x y :
  PyInt.all_chars (fun c => negb (Ascii.eqb c "_")) a = true ->
  PyInt.all_chars (fun c => negb (Ascii.eqb c "_")) a' = true ->
  String.append a (String "_" x) = String.append a' (String "_" y) -> a = a' /\ x = y.
Proof.
  revert a'. induction a as [|c a IH]; intros [|c' a'] Ha Ha' H;
    rewrite ?PyInt.append_cons, ?PyInt.append_nil in H.
  - by injection H.
  - injection H as <- _. discriminate.
  - injection H as -> _. discriminate.
  - injection H as -> H. simpl in Ha, Ha'.
    apply andb_true_iff in Ha as [_ Ha]. apply andb_true_iff in Ha' as [_ Ha'].
    destruct (IH a' Ha Ha' H) as [-> ->]. done.
Qed.

Section WithClient.
Variable py_repr : pyval -> string.
Variable clicked : string -> bool.

Lemma py_format_int z s : py_format py_repr (PInt z) = POk s -> py_str_int z = Some s.
Proof. simpl. destruct (py_str_int z); [by intros [= ->]|discriminate]. Qed.

(** The index [idx] can be read back from a button key. *)
Lemma button_key_idx pfx r c i t r' c' i' t' key :
  button_key py_repr pfx r c i t = POk key ->
  button_key py_repr pfx r' c' i' t' = POk key -> i = i'.
Proof.
  unfold button_key. intros H1 H2.
  pstep H1. pstep H1. pstep H1. pstep H1. injection H1 as <-.
  pstep H2. pstep H2. pstep H2. pstep H2. injection H2 as H.
  apply append_inv_l in H. rewrite !append_us in H. injection H as H.
  apply py_format_int in E, E0, E1, E3, E4, E5.
  apply split_us in H as [_ H]; [|by eapply py_str_int_no_us..].
  apply split_us in H as [_ H]; [|by eapply py_str_int_no_us..].
  apply split_us in H as [Hi _]; [|by eapply py_str_int_no_us..]. subst.
  apply PyInt.py_int_py_str_int in E1, E5. congruence.
Qed.

Definition key_idx (pfx key : string) (i : Z) : Prop :=
  exists r c t, button_key py_repr pfx r c i t = POk key.

Lemma Forall2_In_l {A B} (R : A -> B -> Prop) l1 l2 x :
  Forall2 R l1 l2 -> In x l1 -> exists y, In y l2 /\ R x y.
Proof.
  induction 1 as [|a b l1 l2 Hab _ IH]; [done|]. intros [->|Hx].
  - exists b. split; [left|]; done.
  - destruct (IH Hx) as (y & Hy & Hr). exists y. split; [right|]; done.
Qed.

Lemma NoDup_keys pfx keys is :
  Forall2 (key_idx pfx) keys is -> StronglySorted Z.lt is -> List.NoDup keys.
Proof.
  intros HF. induction HF as [|k i keys is Hki HF IH]; intros Hs; [constructor|].
  apply StronglySorted_inv in Hs as [Hs Hlt]. constructor; [|by apply IH].
  intros Hin. destruct (Forall2_In_l _ _ _ _ HF Hin) as (j & Hj & Hkj).
  destruct Hki as (r & c & t & Hk). destruct Hkj as (r' & c' & t' & Hk').
  pose proof (button_key_idx _ _ _ _ _ _ _ _ _ _ Hk Hk') as ->.
  rewrite List.Forall_forall in Hlt. specialize (Hlt j Hj). lia.
Qed.

Lemma StronglySorted_app {A} (R : A -> A -> Prop) l1 l2 :
  StronglySorted R l1 -> StronglySorted R l2 ->
  (forall x y, In x l1 -> In y l2 -> R x y) -> StronglySorted R (l1 ++ l2).
Proof.
  induction 1 as [|x l1 _ IH Hx]; intros H2 H; [done|]. simpl. constructor.
  - apply IH; [done|]. intros; apply H; [right|]; done.
  - apply List.Forall_forall. intros y Hy. apply in_app_or in Hy as [Hy|Hy].
    + rewrite List.Forall_forall in Hx. by apply Hx.
    + apply H; [left|]; done.
Qed.

Lemma grid_cell_spec pfx r c i m evs ex :
  grid_cell py_repr clicked pfx r c i m = POk (evs, ex) ->
  exists id key, py_get m "tmdb_id" PNone = POk id /\
    button_key py_repr pfx r c i id = POk key /\
    keys_of evs = [key] /\ columns_count evs = O /\
    (ex = GridDone \/ (ex = GridGoto id /\ clicked key = true /\ truthy id = true)) /\
    (clicked key = false -> ex = GridDone).
Proof.
  unfold grid_cell. intros H. pstep H. pstep H. pstep H. cbv zeta in H. pstep H.
  exists a, a2. split; [done|]. split; [done|].
  destruct (truthy a1); destruct (clicked a2) eqn:Hc; destruct (truthy a) eqn:Ht; cbn [andb] in H;
    try (injection H as <- <-; split; [done|]; split; [done|]; split;
         [right; done|intros; congruence]);
    (pstep H; injection H as <- <-; repeat split; try done; by left).
Qed.

Lemma grid_row_keys pfx cards n r cs idx evs idx' ex :
  grid_row py_repr clicked pfx cards n r cs idx = POk (evs, idx', ex) ->
  idx <= idx' /\ exists is, Forall2 (key_idx pfx) (keys_of evs) is /\
    StronglySorted Z.lt is /\ Forall (fun i => idx < i <= idx') is.
Proof.
  revert idx evs idx' ex. induction cs as [|c cs IH]; intros idx evs idx' ex H;
    cbn [grid_row] in H.
  { injection H as <- <- <-. split; [lia|]. exists []. repeat constructor. }
  destruct (n <=? idx).
  { injection H as <- <- <-. split; [lia|]. exists []. repeat constructor. }
  pstep H. pstep H. destruct a0 as [evs1 ex1].
  destruct (grid_cell_spec _ _ _ _ _ _ _ E0) as (id & key & _ & Hk & Hks & _ & _ & _).
  assert (Hki : key_idx pfx key (idx + 1)) by (by exists r, c, id).
  destruct ex1.
  - pstep H. destruct a0 as [[evs2 idx2] ex2]. injection H as <- <- <-.
    destruct (IH _ _ _ _ E1) as (Hle & is & Hf & Hs & Hb).
    split; [lia|]. exists (idx + 1 :: is). rewrite keys_of_app, Hks.
    split; [by constructor|]. split.
    + constructor; [done|]. eapply Forall_impl; [exact Hb|]. simpl. lia.
    + constructor; [lia|]. eapply Forall_impl; [exact Hb|]. simpl. lia.
  - injection H as <- <- <-. split; [lia|]. exists [idx + 1]. rewrite Hks.
    split; [by constructor|]. split; [repeat constructor|]. constructor; [lia|done].
Qed.

Lemma grid_rows_keys pfx cards n cols rs idx evs ex :
  grid_rows py_repr clicked pfx cards n cols rs idx = POk (evs, ex) ->
  exists is, Forall2 (key_idx pfx) (keys_of evs) is /\
    StronglySorted Z.lt is /\ Forall (fun i => idx < i) is.
Proof.
  revert idx evs ex. induction rs as [|r rs IH]; intros idx evs ex H;
    cbn [grid_rows] in H.
  { injection H as <- <-. exists []. repeat constructor. }
  destruct (cols <=? 0); [discriminate|].
  pstep H. destruct a as [[evs1 idx1] ex1].
  destruct (grid_row_keys _ _ _ _ _ _ _ _ _ E) as (Hle & is1 & Hf1 & Hs1 & Hb1).
  destruct ex1.
  - pstep H. destruct a as [evs2 ex2]. injection H as <- <-.
    destruct (IH _ _ _ E0) as (is2 & Hf2 & Hs2 & Hb2).
    exists (is1 ++ is2). simpl. rewrite keys_of_app. split; [by apply Forall2_app|].
    split.
    + apply StronglySorted_app; [done|done|]. intros x y Hx Hy.
      rewrite List.Forall_forall in Hb1, Hb2. specialize (Hb1 x Hx). specialize (Hb2 y Hy).
      lia.
    + apply Forall_app. split; [|eapply Forall_impl; [exact Hb2|]; simpl; lia].
      eapply Forall_impl; [exact Hb1|]. simpl. lia.
  - injection H as <- <-. exists is1. simpl. split; [done|]. split; [done|].
    eapply Forall_impl; [exact Hb1|]. simpl. lia.
Qed.

(** Streamlit refuses two widgets with the same key. The buttons
    [poster_grid] creates in one run have pairwise distinct keys
    [f"{key_prefix}_{r}_{c}_{idx}_{tmdb_id}"], whatever the cards hold
    (even with equal ids), because [idx] grows from card to card. *)
Theorem poster_grid_keys_distinct cards cols pfx evs ex :
  poster_grid py_repr clicked cards cols pfx = POk (evs, ex) ->
  List.NoDup (keys_of evs).
Proof.
  unfold poster_grid. intros H. destruct (negb (truthy cards)).
  { injection H as <- <-. constructor. }
  pstep H. pstep H.
  destruct (grid_rows_keys _ _ _ _ _ _ _ _ H) as (is & Hf & Hs & _).
  by eapply NoDup_keys.
Qed.

(** The card behind a [goto_details] call. *)
Lemma grid_cell_goto pfx r c i m evs v :
  grid_cell py_repr clicked pfx r c i m = POk (evs, GridGoto v) ->
  py_get m "tmdb_id" PNone = POk v /\ truthy v = true /\
  exists key evs0, evs = evs0 ++ [EButton "Open" key] /\ clicked key = true.
Proof.
  unfold grid_cell. intros H. pstep H. pstep H. pstep H. cbv zeta in H. pstep H.
  destruct (clicked a2) eqn:Hc; destruct (truthy a) eqn:Ht; cbn [andb] in H;
    try (pstep H; discriminate H).
  injection H as <- <-. split; [done|]. split; [done|].
  eexists a2, [_; _]. split; [reflexivity|done].
Qed.

Lemma grid_row_goto pfx cards n r cs idx evs idx' v :
  grid_row py_repr clicked pfx cards n r cs idx = POk (evs, idx', GridGoto v) ->
  exists j m, idx <= j /\ py_index cards j = POk m /\
    py_get m "tmdb_id" PNone = POk v /\ truthy v = true /\
    exists key evs0, evs = evs0 ++ [EButton "Open" key] /\ clicked key = true.
Proof.
  revert idx evs idx'. induction cs as [|c cs IH]; intros idx evs idx' H;
    cbn [grid_row] in H; [discriminate|].
  destruct (n <=? idx); [discriminate|].
  pstep H. pstep H. destruct a0 as [evs1 ex1]. destruct ex1.
  - pstep H. destruct a0 as [[evs2 idx2] ex2]. injection H as <- <- ->.
    destruct (IH _ _ _ E1) as (j & m & Hj & Hm & Hv & Ht & key & evs0 & -> & Hc).
    exists j, m. split; [lia|]. do 3 (split; [done|]).
    exists key, (evs1 ++ evs0). rewrite app_assoc. done.
  - injection H as <- <- ->.
    destruct (grid_cell_goto _ _ _ _ _ _ _ E0) as (Hv & Ht & Hk).
    exists idx, a. split; [lia|]. done.
Qed.

Lemma grid_rows_goto pfx cards n cols rs idx evs v :
  grid_rows py_repr clicked pfx cards n cols rs idx = POk (evs, GridGoto v) ->
  exists j m, idx <= j /\ py_index cards j = POk m /\
    py_get m "tmdb_id" PNone = POk v /\ truthy v = true /\
    exists key evs0, evs = evs0 ++ [EButton "Open" key] /\ clicked key = true.
Proof.
  revert idx evs. induction rs as [|r rs IH]; intros idx evs H;
    cbn [grid_rows] in H; [discriminate|].
  destruct (cols <=? 0); [discriminate|].
  pstep H. destruct a as [[evs1 idx1] ex1].
  destruct (grid_row_keys _ _ _ _ _ _ _ _ _ E) as [Hle _].
  destruct ex1.
  - pstep H. destruct a as [evs2 ex2]. injection H as <- ->.
    destruct (IH _ _ E0) as (j & m & Hj & Hm & Hv & Ht & key & evs0 & -> & Hc).
    exists j, m. split; [lia|]. do 3 (split; [done|]).
    exists key, (EColumns cols :: evs1 ++ evs0). rewrite app_comm_cons, app_assoc. done.
  - injection H as <- ->.
    destruct (grid_row_goto _ _ _ _ _ _ _ _ _ E) as (j & m & Hj & Hm & Hv & Ht & key & evs0 & -> & Hc).
    exists j, m. split; [lia|]. do 3 (split; [done|]).
    exists key, (EColumns cols :: evs0). done.
Qed.

(** [goto_details(tmdb_id)] ends the run ([st.rerun()]): when [poster_grid]
    leaves through it, the id it passes is a truthy [tmdb_id] of a card
    [cards[j]] ([j >= 0]), and the last thing drawn is the clicked button,
    so nothing of the grid is drawn after it. *)
Theorem poster_grid_goto_card cards cols pfx evs v :
  poster_grid py_repr clicked cards cols pfx = POk (evs, GridGoto v) ->
  exists j m, 0 <= j /\ py_index cards j = POk m /\
    py_get m "tmdb_id" PNone = POk v /\ truthy v = true /\
    exists key evs0, evs = evs0 ++ [EButton "Open" key] /\ clicked key = true.
Proof.
  unfold poster_grid. intros H. destruct (negb (truthy cards)); [discriminate|].
  pstep H. pstep H. by apply grid_rows_goto in H.
Qed.

(** A [cols] of [0] makes [//] fail; a negative [cols] either makes
    [st.columns] fail or gives an empty [range(rows)]: no card is drawn. *)
Theorem poster_grid_nonpositive_cols l cols pfx :
  l <> [] -> cols <= 0 ->
  (cols = 0 /\ poster_grid py_repr clicked (PList l) cols pfx = PErr ZeroDivisionError) \/
  (cols < 0 /\ (poster_grid py_repr clicked (PList l) cols pfx = PErr StreamlitAPIException \/
                poster_grid py_repr clicked (PList l) cols pfx = POk ([], GridDone))).
Proof.
  intros Hl Hc. unfold poster_grid.
  replace (truthy (PList l)) with true by (destruct l; done). cbn [negb py_len pbind].
  unfold py_floordiv. destruct (Z.eqb_spec cols 0) as [->|Hne].
  { left. done. }
  right. split; [lia|]. cbn [pbind]. unfold py_range.
  destruct (Z.to_nat ((Z.of_nat (length l) + cols - 1) / cols)); cbn.
  - by right.
  - left. replace (cols <=? 0) with true by lia. done.
Qed.

(** What the button of card [k] looks like: card [k] sits in row [k / cols],
    column [k mod cols], and its key carries [idx = k + 1] and its id. *)
Definition keyspec (l : list pyval) (cols : Z) (pfx : string) (k : nat) (key : string) : Prop :=
  exists m id, nth_error l k = Some m /\ py_get m "tmdb_id" PNone = POk id /\
    button_key py_repr pfx (Z.of_nat k / cols) (Z.of_nat k mod cols) (Z.of_nat k + 1) id = POk key.

Lemma py_index_list l i :
  0 <= i < Z.of_nat (length l) ->
  exists m, py_index (PList l) i = POk m /\ nth_error l (Z.to_nat i) = Some m.
Proof.
  intros Hi. unfold py_index.
  replace (i <? 0) with false by lia. replace (0 <=? i) with true by lia.
  replace (i <? Z.of_nat (length l)) with true by lia. cbn [andb].
  destruct (nth_error l (Z.to_nat i)) eqn:E; [by eexists|].
  apply nth_error_None in E. lia.
Qed.

Lemma grid_row_layout l cols pfx r c0 k idx evs idx' ex :
  (forall key, clicked key = false) ->
  0 <= r -> Z.of_nat (c0 + k) = cols -> idx = r * cols + Z.of_nat c0 ->
  idx <= Z.of_nat (length l) ->
  grid_row py_repr clicked pfx (PList l) (Z.of_nat (length l)) r
    (map Z.of_nat (seq c0 k)) idx = POk (evs, idx', ex) ->
  ex = GridDone /\ idx' = Z.min (Z.of_nat (length l)) (r * cols + cols) /\
  columns_count evs = O /\
  Forall2 (keyspec l cols pfx) (seq (Z.to_nat idx) (Z.to_nat (idx' - idx))) (keys_of evs).
Proof.
  intros Hnc. revert c0 idx evs idx' ex.
  induction k as [|k IH]; intros c0 idx evs idx' ex Hr Hc Hidx Hn H;
    cbn [map seq grid_row] in H.
  { injection H as <- <- <-. split; [done|]. split; [lia|]. split; [done|].
    replace (idx - idx) with 0 by lia. constructor. }
  destruct (Z.leb_spec (Z.of_nat (length l)) idx).
  { injection H as <- <- <-. split; [done|]. split; [lia|]. split; [done|].
    replace (idx - idx) with 0 by lia. constructor. }
  destruct (py_index_list l idx) as (m & Hm & Hnth); [lia|].
  rewrite Hm in H. cbn [pbind] in H. pstep H. destruct a as [evs1 ex1].
  destruct (grid_cell_spec _ _ _ _ _ _ _ E) as (id & key & Hid & Hk & Hks & Hcc & _ & Hd).
  rewrite (Hd (Hnc key)) in H. cbn iota in H. pstep H.
  destruct a as [[evs2 idx2] ex2]. injection H as <- <- <-.
  destruct (IH (S c0) (idx + 1) _ _ _ Hr ltac:(lia) ltac:(lia) ltac:(lia) E0)
    as (-> & -> & Hcc2 & Hf).
  split; [done|]. split; [done|].
  rewrite columns_count_app, Hcc, Hcc2. split; [done|].
  rewrite keys_of_app, Hks.
  replace (Z.to_nat (Z.min (Z.of_nat (length l)) (r * cols + cols) - idx))
    with (S (Z.to_nat (Z.min (Z.of_nat (length l)) (r * cols + cols) - (idx + 1)))) by lia.
  cbn [seq]. replace (S (Z.to_nat idx)) with (Z.to_nat (idx + 1)) by lia.
  constructor; [|done].
  exists m, id. rewrite Z2Nat.id by lia. split; [done|]. split; [done|].
  replace (Z.of_nat (Z.to_nat idx)) with idx in Hnth by lia.
  replace (idx / cols) with r; [replace (idx mod cols) with (Z.of_nat c0); [done|]|].
  - apply (Z.mod_unique _ _ r); lia.
  - apply (Z.div_unique _ _ _ (Z.of_nat c0)); lia.
Qed.

Lemma grid_rows_layout l cols pfx r0 j evs ex :
  (forall key, clicked key = false) -> 1 <= cols ->
  Z.of_nat r0 * cols <= Z.of_nat (length l) <= Z.of_nat (r0 + j) * cols ->
  (0 < j)%nat -> (Z.of_nat (r0 + j) - 1) * cols < Z.of_nat (length l) ->
  grid_rows py_repr clicked pfx (PList l) (Z.of_nat (length l)) cols
    (map Z.of_nat (seq r0 j)) (Z.of_nat r0 * cols) = POk (evs, ex) ->
  ex = GridDone /\ columns_count evs = j /\
  Forall2 (keyspec l cols pfx)
    (seq (Z.to_nat (Z.of_nat r0 * cols)) (Z.to_nat (Z.of_nat (length l) - Z.of_nat r0 * cols)))
    (keys_of evs).
Proof.
  intros Hnc Hc1. revert r0 evs ex.
  induction j as [|j IH]; intros r0 evs ex Hb Hj Hlast H; [lia|].
  cbn [map seq grid_rows] in H. replace (cols <=? 0) with false in H by lia.
  pstep H. destruct a as [[evs1 idx1] ex1].
  unfold py_range in E.
  destruct (grid_row_layout l cols pfx (Z.of_nat r0) 0 (Z.to_nat cols) (Z.of_nat r0 * cols) _ _ _ Hnc
              ltac:(lia) ltac:(lia) ltac:(lia) ltac:(lia) E) as (-> & Hidx1 & Hcc1 & Hf1).
  cbn iota in H. pstep H. destruct a as [evs2 ex2]. injection H as <- <-.
  destruct j as [|j].
  - cbn in E0. injection E0 as <- <-. split; [done|].
    cbn [columns_count]. rewrite columns_count_app, Hcc1. split; [done|].
    cbn [keys_of]. rewrite keys_of_app, app_nil_r. replace idx1 with (Z.of_nat (length l)) in Hf1 by lia.
    done.
  - replace idx1 with (Z.of_nat (S r0) * cols) in E0 by lia.
    destruct (IH (S r0) _ _ ltac:(lia) ltac:(lia) ltac:(lia) E0) as (-> & Hcc2 & Hf2).
    split; [done|]. cbn [columns_count]. rewrite columns_count_app, Hcc1, Hcc2.
    split; [done|]. cbn [keys_of]. rewrite keys_of_app.
    replace (Z.to_nat (Z.of_nat (length l) - Z.of_nat r0 * cols))
      with (Z.to_nat (idx1 - Z.of_nat r0 * cols) + Z.to_nat (Z.of_nat (length l) - Z.of_nat (S r0) * cols))%nat
      by lia.
    rewrite seq_app. apply Forall2_app; [done|].
    replace (Z.to_nat (Z.of_nat r0 * cols) + Z.to_nat (idx1 - Z.of_nat r0 * cols))%nat
      with (Z.to_nat (Z.of_nat (S r0) * cols)) by lia.
    done.
Qed.

(** With a positive [cols], a non-empty list of cards and no button
    clicked, [poster_grid] opens [ceil(len(cards) / cols)] rows of columns
    and draws one button per card, in the order of the list: the [k]-th
    button is that of [cards[k]], in row [k // cols] and column
    [k % cols], with key [f"{key_prefix}_{r}_{c}_{k+1}_{tmdb_id}"]. *)
Theorem poster_grid_layout l cols pfx evs ex :
  (forall key, clicked key = false) -> 1 <= cols -> l <> [] ->
  poster_grid py_repr clicked (PList l) cols pfx = POk (evs, ex) ->
  ex = GridDone /\
  columns_count evs = Z.to_nat ((Z.of_nat (length l) + cols - 1) / cols) /\
  Forall2 (keyspec l cols pfx) (seq 0 (length l)) (keys_of evs).
Proof.
  intros Hnc Hc Hl H. unfold poster_grid in H.
  replace (truthy (PList l)) with true in H by (destruct l; done).
  cbn [negb py_len pbind] in H. unfold py_floordiv in H.
  replace (cols =? 0) with false in H by lia. cbn [pbind] in H.
  assert (Hlen : (1 <= length l)%nat) by (destruct l; [done|simpl; lia]).
  set (n := Z.of_nat (length l)) in *.
  set (rows := (n + cols - 1) / cols) in *.
  assert (Hq := Z.div_mod (n + cols - 1) cols ltac:(lia)).
  assert (Hm := Z.mod_pos_bound (n + cols - 1) cols ltac:(lia)).
  fold rows in Hq.
  assert (Hr1 : 1 <= rows) by nia.
  unfold py_range in H. change 0 with (Z.of_nat 0 * cols) in H.
  destruct (grid_rows_layout l cols pfx 0 (Z.to_nat rows) evs ex Hnc Hc
              ltac:(nia) ltac:(lia) ltac:(nia) H) as (-> & Hcc & Hf).
  split; [done|]. split; [done|].
  replace (Z.to_nat (Z.of_nat 0 * cols)) with 0%nat in Hf by lia.
  replace (Z.to_nat (Z.of_nat (length l) - Z.of_nat 0 * cols)) with (length l) in Hf by lia.
  done.
Qed.

End WithClient.

End Grid.

(** * Instances of the properties above on sample replies *)

Module Samples.

(** An OMDb search reply: a title with surrounding spaces, a missing poster
    and a title the keyword does not match. *)
Definition omdb_search_items : list pyval :=
  [PDict [("Title", PStr "The Matrix"); ("Year", PStr "1999");
          ("imdbID", PStr "tt0133093"); ("Poster", PStr "N/A")];
   PDict [("Title", PStr " Matrix Reloaded "); ("Year", PStr "2003");
          ("imdbID", PStr "tt0234215"); ("Poster", PStr "http://p")];
   PDict [("Title", PStr "Speed"); ("Year", PStr "1994");
          ("imdbID", PStr "tt0111257"); ("Poster", PStr "http://s")]].

Definition omdb_search_dict : list (string * pyval) :=
  [("Search", PList omdb_search_items); ("totalResults", PStr "3")].

Definition omdb_search_suggestions : list (pyval * pyval) :=
  [(PStr "The Matrix (1999)", PInt 133093); (PStr "Matrix Reloaded (2003)", PInt 234215)].

Definition omdb_search_cards : list pyval :=
  [card_of (PInt 133093) (PStr "The Matrix") PNone;
   card_of (PInt 234215) (PStr "Matrix Reloaded") (PStr "http://p")].

Definition no_repr (_ : pyval) : string := "".

(** A TF-IDF list: one item with TMDB data, one without, one with [None]. *)
Definition tfidf_items : list pyval :=
  [PDict [("tmdb", PDict [("tmdb_id", PInt 5); ("title", PStr "X")])];
   PDict [("title", PStr "Y")];
   PDict [("tmdb", PNone); ("title", PStr "Z")]].

(** Three cards, two of them with the same id. *)
Definition grid_cards : list pyval :=
  [PDict [("tmdb_id", PInt 5)]; PDict [("tmdb_id", PInt 7)]; PDict [("tmdb_id", PInt 5)]].

Definition grid_events : list st_event :=
  [EColumns 2; EColumn 0; ENoPoster; EButton "Open" "grid_0_0_1_5";
   EMarkdown "<div class='movie-title'>Untitled</div>";
   EColumn 1; ENoPoster; EButton "Open" "grid_0_1_2_7";
   EMarkdown "<div class='movie-title'>Untitled</div>";
   EColumns 2; EColumn 0; ENoPoster; EButton "Open" "grid_1_0_3_5";
   EMarkdown "<div class='movie-title'>Untitled</div>"].

Definition no_click (_ : string) : bool := false.

Definition click_second (k : string) : bool := String.eqb k "grid_0_1_2_7".

Lemma roundtrip_witness :
  py_str_int 111161 = Some "111161" /\ movie_details_route_id 111161 = Some 111161.
Proof.
  split; [reflexivity|].
  apply (OmdbIds.movie_details_route_id_roundtrip 111161 "111161"). reflexivity.
Defined.

Lemma leading_zero_witness :
  is_digit "1" = true /\ PyInt.all_chars is_digit "1161" = true /\
  (String.length "1161" < 4299)%nat /\
  imdb_to_int (String "t" (String "t" (String "0" (String "1" "1161"))))
  = imdb_to_int (String "t" (String "t" (String "1" "1161"))).
Proof.
  split; [reflexivity|]. split; [reflexivity|]. split; [simpl; lia|].
  apply OmdbIds.imdb_to_int_drops_leading_zero; [reflexivity|reflexivity|simpl; lia].
Defined.

Lemma genres_witness :
  Forall (fun n => n <> EmptyString /\ str_contains ", " n = false) ["Action"; "Crime"; "Drama"] /\
  omdb_genres (PDict [("Genre", PStr (join_comma ["Action"; "Crime"; "Drama"]))])
  = POk (map (fun n => PDict [("name", PStr n)]) ["Action"; "Crime"; "Drama"]).
Proof.
  assert (H : Forall (fun n => n <> EmptyString /\ str_contains ", " n = false)
                ["Action"; "Crime"; "Drama"])
    by (repeat constructor; (discriminate || reflexivity)).
  split; [exact H|].
  apply (Genres.omdb_genres_join ["Action"; "Crime"; "Drama"]); [exact H|reflexivity].
Defined.

Lemma bad_id_witness :
  (<["id" := "abc"]> (∅ : gmap string string)) !! "id" = Some "abc" /\ py_int "abc" = None /\
  route ∅ (<["id" := "abc"]> ∅) = route ∅ (delete "id" (<["id" := "abc"]> ∅)).
Proof.
  split; [reflexivity|]. split; [reflexivity|].
  apply (Routing.route_ignores_bad_id ∅ _ "abc"); reflexivity.
Defined.

Lemma goto_details_witness :
  py_int_of (PInt 603) = POk 603 /\ py_str_int 603 = Some "603" /\
  exists ss' qp', goto_details (PInt 603) ∅ ∅ = (ss', qp', None) /\
    ss' !! "view" = Some (PStr "details") /\
    ss' !! "selected_tmdb_id" = Some (PInt 603) /\
    route ss' qp' = ss'.
Proof.
  split; [reflexivity|]. split; [reflexivity|].
  apply (Routing.goto_details_rerun (PInt 603) ∅ ∅ 603 "603"); reflexivity.
Defined.

Lemma home_count_witness :
  dget "Search" omdb_search_dict = Some (PList omdb_search_items) /\
  home_cards unit (fun _ _ _ _ => POk tt) (PDict omdb_search_dict) (-1) = POk [tt; tt] /\
  ((0 <= -1 -> length [tt; tt] = Nat.min (Z.to_nat (-1)) (length omdb_search_items)) /\
   (-1 < 0 -> length [tt; tt] = (length omdb_search_items - Z.to_nat (- -1))%nat)).
Proof.
  split; [reflexivity|]. split; [vm_compute; reflexivity|].
  apply (Home.home_cards_count unit (fun _ _ _ _ => POk tt) omdb_search_dict
           omdb_search_items (-1) [tt; tt]); [reflexivity|vm_compute; reflexivity].
Defined.

Lemma to_cards_shape_witness :
  to_cards_from_tfidf_items (PList tfidf_items) = POk [card_of (PInt 5) (PStr "X") PNone] /\
  (length [card_of (PInt 5) (PStr "X") PNone] <= length tfidf_items)%nat /\
  Forall (fun c => exists id t p, c = card_of id t p /\ truthy id = true /\ truthy t = true)
    [card_of (PInt 5) (PStr "X") PNone].
Proof.
  split; [vm_compute; reflexivity|].
  apply TfidfCards.to_cards_shape. vm_compute. reflexivity.
Defined.

Lemma to_cards_total_witness :
  Forall (fun x => exists d, x = PDict d /\
            match dget "tmdb" d with
            | Some t => truthy t = false \/ exists d', t = PDict d'
            | None => True
            end) tfidf_items /\
  exists cs, to_cards_from_tfidf_items (PList tfidf_items) = POk cs.
Proof.
  assert (H : Forall (fun x => exists d, x = PDict d /\
            match dget "tmdb" d with
            | Some t => truthy t = false \/ exists d', t = PDict d'
            | None => True
            end) tfidf_items).
  { repeat constructor; eexists; split; try reflexivity; simpl;
      first [exact I | left; reflexivity | right; eexists; reflexivity]. }
  split; [exact H|]. apply TfidfCards.to_cards_no_exception. exact H.
Defined.

Lemma parse_bounds_witness :
  parse_tmdb_search_to_cards no_repr (PDict omdb_search_dict) " Matrix" 24
  = POk (omdb_search_suggestions, omdb_search_cards) /\
  (length omdb_search_suggestions <= 10)%nat /\
  (0 <= 24 -> (length omdb_search_cards <= Z.to_nat 24)%nat).
Proof.
  split; [vm_compute; reflexivity|].
  apply (Parse.parse_bounds no_repr (PDict omdb_search_dict) " Matrix" 24).
  vm_compute. reflexivity.
Defined.

Lemma parse_other_witness :
  (forall l, PDict [("totalResults", PStr "0")] <> PList l) /\
  py_has_key (PDict [("totalResults", PStr "0")]) "Search" = false /\
  py_has_key (PDict [("totalResults", PStr "0")]) "results" = false /\
  parse_tmdb_search_to_cards no_repr (PDict [("totalResults", PStr "0")]) "x" 24 = POk ([], []).
Proof.
  assert (H : forall l, PDict [("totalResults", PStr "0")] <> PList l) by discriminate.
  split; [exact H|]. split; [reflexivity|]. split; [reflexivity|].
  apply Parse.parse_other_reply; [exact H|reflexivity|reflexivity].
Defined.

Lemma parse_all_or_none_witness :
  parse_tmdb_search_to_cards no_repr (PDict omdb_search_dict) " Matrix" 24
  = POk (omdb_search_suggestions, omdb_search_cards) /\
  (Forall (fun c => title_has (lower (strip " Matrix")) c = POk true) omdb_search_cards \/
   Forall (fun c => title_has (lower (strip " Matrix")) c = POk false) omdb_search_cards).
Proof.
  split; [vm_compute; reflexivity|].
  apply (Parse.parse_cards_all_or_none no_repr (PDict omdb_search_dict) " Matrix" 24
           omdb_search_suggestions).
  vm_compute. reflexivity.
Defined.

Lemma parse_prefix_witness :
  10 <= 24 /\
  parse_tmdb_search_to_cards no_repr (PDict omdb_search_dict) " Matrix" 24
  = POk (omdb_search_suggestions, omdb_search_cards) /\
  map (fun s => POk s.2) omdb_search_suggestions
  = map (fun c => py_getitem c "tmdb_id") (firstn 10 omdb_search_cards).
Proof.
  split; [lia|]. split; [vm_compute; reflexivity|].
  apply (Parse.parse_suggestions_prefix no_repr (PDict omdb_search_dict) " Matrix" 24);
    [lia|vm_compute; reflexivity].
Defined.

Lemma parse_omdb_cards_witness :
  py_has_key (PDict omdb_search_dict) "Search" = true /\
  parse_tmdb_search_to_cards no_repr (PDict omdb_search_dict) " Matrix" 24
  = POk (omdb_search_suggestions, omdb_search_cards) /\
  Forall (fun c => exists n t p, c = card_of (PInt n) (PStr t) p /\
            n <> 0 /\ t <> EmptyString /\ strip t = t /\ p <> PStr "N/A") omdb_search_cards.
Proof.
  split; [reflexivity|]. split; [vm_compute; reflexivity|].
  apply (Parse.parse_omdb_cards no_repr (PDict omdb_search_dict) " Matrix" 24
           omdb_search_suggestions); [reflexivity|vm_compute; reflexivity].
Defined.

Lemma parse_omdb_total_witness :
  dget "Search" omdb_search_dict = Some (PList omdb_search_items) /\
  Forall (fun m => exists dm, m = PDict dm /\ Parse.str_or_none (dget "Title" dm) /\
                     Parse.str_or_none (dget "Year" dm)) omdb_search_items /\
  exists r, parse_tmdb_search_to_cards no_repr (PDict omdb_search_dict) " Matrix" 24 = POk r.
Proof.
  assert (H : Forall (fun m => exists dm, m = PDict dm /\ Parse.str_or_none (dget "Title" dm) /\
                     Parse.str_or_none (dget "Year" dm)) omdb_search_items)
    by (repeat (constructor; [eexists; split; [reflexivity|vm_compute; split; exact I]|]);
        constructor).
  split; [reflexivity|]. split; [exact H|].
  apply (Parse.parse_omdb_no_exception no_repr omdb_search_dict omdb_search_items);
    [reflexivity|exact H].
Defined.

Lemma grid_keys_witness :
  poster_grid no_repr no_click (PList grid_cards) 2 "grid" = POk (grid_events, GridDone) /\
  List.NoDup (Grid.keys_of grid_events).
Proof.
  split; [vm_compute; reflexivity|].
  apply (Grid.poster_grid_keys_distinct no_repr no_click (PList grid_cards) 2 "grid" _ GridDone).
  vm_compute. reflexivity.
Defined.

Lemma grid_goto_witness :
  poster_grid no_repr click_second (PList grid_cards) 2 "grid"
  = POk (firstn 8 grid_events, GridGoto (PInt 7)) /\
  exists j m, 0 <= j /\ py_index (PList grid_cards) j = POk m /\
    py_get m "tmdb_id" PNone = POk (PInt 7) /\ truthy (PInt 7) = true /\
    exists key evs0, firstn 8 grid_events = evs0 ++ [EButton "Open" key] /\ click_second key = true.
Proof.
  split; [vm_compute; reflexivity|].
  apply (Grid.poster_grid_goto_card no_repr click_second (PList grid_cards) 2 "grid").
  vm_compute. reflexivity.
Defined.

Lemma grid_cols_witness :
  [PDict []] <> [] /\ -1 <= 0 /\
  ((-1 = 0 /\ poster_grid no_repr no_click (PList [PDict []]) (-1) "grid" = PErr ZeroDivisionError) \/
   (-1 < 0 /\ (poster_grid no_repr no_click (PList [PDict []]) (-1) "grid" = PErr StreamlitAPIException \/
               poster_grid no_repr no_click (PList [PDict []]) (-1) "grid" = POk ([], GridDone)))).
Proof.
  split; [discriminate|]. split; [lia|].
  apply Grid.poster_grid_nonpositive_cols; [discriminate|lia].
Defined.

Lemma grid_layout_witness :
  (forall key, no_click key = false) /\ 1 <= 2 /\ grid_cards <> [] /\
  poster_grid no_repr no_click (PList grid_cards) 2 "grid" = POk (grid_events, GridDone) /\
  (GridDone = GridDone /\
   Grid.columns_count grid_events = Z.to_nat ((Z.of_nat (length grid_cards) + 2 - 1) / 2) /\
   Forall2 (Grid.keyspec no_repr grid_cards 2 "grid") (seq 0 (length grid_cards))
     (Grid.keys_of grid_events)).
Proof.
  split; [reflexivity|]. split; [lia|]. split; [discriminate|].
  split; [vm_compute; reflexivity|].
  apply (Grid.poster_grid_layout no_repr no_click grid_cards 2 "grid");
    [reflexivity|lia|discriminate|vm_compute; reflexivity].
Defined.

End Samples.
